(** * MyNoteTaking: the note model, the tag codec and the request handlers

    A shallow embedding of [src/models/note.py], [src/routes/note.py] and
    [src/llm.py], with the fragments of the Python runtime they lean on
    (truthiness, [str] methods, [json.loads], [json.dumps], one regular
    expression), followed by the properties of the handlers. *)

From Stdlib Require Import ZArith NArith String Ascii List Lia Bool.
From stdpp Require Import base option list gmap sorting.
Import ListNotations.

Set Warnings "-register-all".
Set Default Goal Selector "!".

(** ** Python strings

    A Python [str] is the sequence of its code points.  Literals of the
    development are written as ASCII Rocq strings and converted by [u]; [js]
    additionally reads every apostrophe as a double quote, so that JSON texts
    stay legible. *)

Definition str := list N.

Definition u (s : string) : str := map N_of_ascii (list_ascii_of_string s).

Definition js (s : string) : str :=
  map (fun c => if N.eqb c 39 then 34%N else c) (u s).

Module PyStr.

Local Open Scope N_scope.

(** [str.isspace] on one code point (CPython's [_PyUnicode_IsWhitespace]). *)
Definition isspace (c : N) : bool :=
  ((9 <=? c) && (c <=? 13)) || ((28 <=? c) && (c <=? 32))
  || (c =? 133) || (c =? 160) || (c =? 5760)
  || ((8192 <=? c) && (c <=? 8202))
  || (c =? 8232) || (c =? 8233) || (c =? 8239) || (c =? 8287) || (c =? 12288).

Fixpoint lstrip (s : str) : str :=
  match s with
  | [] => []
  | c :: r => if isspace c then lstrip r else s
  end.

Definition rstrip (s : str) : str := rev (lstrip (rev s)).

(** [s.strip()] *)
Definition strip (s : str) : str := rstrip (lstrip s).

(** [s.split(sep)] for a one-character separator. *)
Fixpoint split (sep : N) (s : str) : list str :=
  match s with
  | [] => [[]]
  | c :: r =>
      if c =? sep then [] :: split sep r
      else match split sep r with
           | h :: t => (c :: h) :: t
           | [] => [[c]]
           end
  end.

Fixpoint eqb (a b : str) : bool :=
  match a, b with
  | [], [] => true
  | x :: a', y :: b' => (x =? y) && eqb a' b'
  | _, _ => false
  end.

Fixpoint startswith (p s : str) : bool :=
  match p, s with
  | [], _ => true
  | x :: p', y :: s' => (x =? y) && startswith p' s'
  | _ :: _, [] => false
  end.

(** [p in s] for two strings: substring test. *)
Fixpoint contains (p s : str) : bool :=
  startswith p s || match s with
                    | [] => false
                    | _ :: s' => contains p s'
                    end.

(** [sep.join(parts)] *)
Fixpoint join (sep : str) (parts : list str) : str :=
  match parts with
  | [] => []
  | [p] => p
  | p :: rest => p ++ sep ++ join sep rest
  end.

End PyStr.

(** ** JSON values and Python's [json] module

    The values [json.loads] produces, which are also the values a handler
    finds in [request.json].  A float is kept as the text of its literal:
    floating-point arithmetic is outside the embedding. *)

Inductive json : Type :=
| JNull
| JBool (b : bool)
| JInt (z : Z)
| JFloat (lexeme : str)
| JStr (s : str)
| JArr (items : list json)
| JObj (members : list (str * json)).

Module Json.

Local Open Scope N_scope.

Definition ch (a : ascii) : N := N_of_ascii a.
Definition dq : N := 34.   (* the double quote *)
Definition bs : N := 92.   (* the backslash *)

(** A [dict] keeps its keys in insertion order; assigning to a key that is
    present replaces the value in place. *)
Fixpoint dict_set (k : str) (v : json) (d : list (str * json)) : list (str * json) :=
  match d with
  | [] => [(k, v)]
  | (k', v') :: d' =>
      if PyStr.eqb k k' then (k, v) :: d' else (k', v') :: dict_set k v d'
  end.

Fixpoint dict_lookup (k : str) (d : list (str * json)) : option json :=
  match d with
  | [] => None
  | (k', v) :: d' => if PyStr.eqb k k' then Some v else dict_lookup k d'
  end.

(** [dict(pairs)] *)
Definition dict_of_pairs (pairs : list (str * json)) : list (str * json) :=
  fold_left (fun d kv => dict_set (fst kv) (snd kv) d) pairs [].

(** *** Decoding *)

(** The decoder's [WHITESPACE]: space, tab, line feed, carriage return. *)
Definition is_ws (c : N) : bool :=
  (c =? 32) || (c =? 9) || (c =? 10) || (c =? 13).

Fixpoint skip_ws (s : str) : str :=
  match s with
  | [] => []
  | c :: r => if is_ws c then skip_ws r else s
  end.

Definition hexval (c : N) : option N :=
  if (48 <=? c) && (c <=? 57) then Some (c - 48)
  else if (97 <=? c) && (c <=? 102) then Some (c - 87)
  else if (65 <=? c) && (c <=? 70) then Some (c - 55)
  else None.

(** [_decode_uXXXX]: four hexadecimal digits. *)
Definition hex4 (h1 h2 h3 h4 : N) : option N :=
  match hexval h1, hexval h2, hexval h3, hexval h4 with
  | Some a, Some b, Some c, Some d => Some (((a * 16 + b) * 16 + c) * 16 + d)
  | _, _, _, _ => None
  end.

(** The decoder's [BACKSLASH] table. *)
Definition backslash (e : N) : option N :=
  if e =? dq then Some dq
  else if e =? bs then Some bs
  else if e =? ch "/" then Some (ch "/")
  else if e =? ch "b" then Some 8
  else if e =? ch "f" then Some 12
  else if e =? ch "n" then Some 10
  else if e =? ch "r" then Some 13
  else if e =? ch "t" then Some 9
  else None.

Definition is_high_surrogate (c : N) : bool := (55296 <=? c) && (c <=? 56319).
Definition is_low_surrogate (c : N) : bool := (56320 <=? c) && (c <=? 57343).

Definition join_surrogates (hi lo : N) : N :=
  65536 + N.lor (N.shiftl (hi - 55296) 10) (lo - 56320).

(** [py_scanstring] in strict mode, started after the opening quote: the
    decoded string and the text after the closing quote.  [acc] holds the
    code points decoded so far, last first. *)
Fixpoint scanstring (s : str) (acc : str) : option (str * str) :=
  match s with
  | [] => None
  | c :: r =>
      if c =? dq then Some (rev acc, r)
      else if c =? bs then
        match r with
        | [] => None
        | e :: r1 =>
            if e =? ch "u" then
              match r1 with
              | h1 :: h2 :: h3 :: h4 :: r2 =>
                  match hex4 h1 h2 h3 h4 with
                  | None => None
                  | Some uni =>
                      if is_high_surrogate uni then
                        match r2 with
                        | b :: e2 :: g1 :: g2 :: g3 :: g4 :: r3 =>
                            if (b =? bs) && (e2 =? ch "u") then
                              match hex4 g1 g2 g3 g4 with
                              | None => None
                              | Some uni2 =>
                                  if is_low_surrogate uni2
                                  then scanstring r3 (join_surrogates uni uni2 :: acc)
                                  else scanstring r2 (uni :: acc)
                              end
                            else scanstring r2 (uni :: acc)
                        | _ => scanstring r2 (uni :: acc)
                        end
                      else scanstring r2 (uni :: acc)
                  end
              | _ => None
              end
            else
              match backslash e with
              | Some c' => scanstring r1 (c' :: acc)
              | None => None
              end
        end
      else if c <? 32 then None
      else scanstring r (c :: acc)
  end.

Definition is_digit (c : N) : bool := (48 <=? c) && (c <=? 57).

Fixpoint span_digits (s : str) : str * str :=
  match s with
  | [] => ([], [])
  | c :: r =>
      if is_digit c then (let (ds, r') := span_digits r in (c :: ds, r'))
      else ([], s)
  end.

Definition int_of_digits (ds : str) : Z :=
  Z.of_N (fold_left (fun n c => n * 10 + (c - 48)) ds 0).

(** The integer part of [NUMBER_RE]: [0|[1-9][0-9]*]. *)
Definition match_int (s : str) : option (str * str) :=
  match s with
  | [] => None
  | c :: r =>
      if c =? ch "0" then Some ([c], r)
      else if is_digit c then (let (ds, r') := span_digits r in Some (c :: ds, r'))
      else None
  end.

(** The optional groups [(\.[0-9]+)?] and [([eE][-+]?[0-9]+)?]: the text
    matched (empty when the group does not match) and the rest. *)
Definition match_frac (s : str) : str * str :=
  match s with
  | c :: r =>
      if c =? ch "." then
        match span_digits r with
        | ([], _) => ([], s)
        | (ds, r') => (c :: ds, r')
        end
      else ([], s)
  | [] => ([], s)
  end.

Definition match_exp (s : str) : str * str :=
  match s with
  | c :: r =>
      if (c =? ch "e") || (c =? ch "E") then
        let (sign, r1) :=
          match r with
          | g :: r0 => if (g =? ch "-") || (g =? ch "+") then ([g], r0) else ([], r)
          | [] => ([], r)
          end in
        match span_digits r1 with
        | ([], _) => ([], s)
        | (ds, r') => (c :: sign ++ ds, r')
        end
      else ([], s)
  | [] => ([], s)
  end.

(** [NUMBER_RE] matched at the head of [s]. *)
Definition match_number (s : str) : option (json * str) :=
  let (neg, s1) :=
    match s with
    | c :: r => if c =? ch "-" then (true, r) else (false, s)
    | [] => (false, s)
    end in
  match match_int s1 with
  | None => None
  | Some (ip, r1) =>
      let (frac, r2) := match_frac r1 in
      let (ex, r3) := match_exp r2 in
      match frac, ex with
      | [], [] =>
          Some (JInt (if neg then Z.opp (int_of_digits ip) else int_of_digits ip), r3)
      | _, _ =>
          Some (JFloat ((if neg then [ch "-"] else []) ++ ip ++ frac ++ ex), r3)
      end
  end.

(** A decoding step ends with a value and the text after it, with a decode
    error, or because the recursion budget [fuel] is used up. *)
Inductive scan : Type :=
| Scanned (v : json) (rest : str)
| DecodeError
| OutOfFuel.

Definition literal_at (word : string) (v : json) (s : str) : option (json * str) :=
  if PyStr.startswith (u word) s then Some (v, skipn (length (u word)) s) else None.

Definition scan_constant (s : str) : scan :=
  match literal_at "null" JNull s with
  | Some (v, r) => Scanned v r
  | None =>
  match literal_at "true" (JBool true) s with
  | Some (v, r) => Scanned v r
  | None =>
  match literal_at "false" (JBool false) s with
  | Some (v, r) => Scanned v r
  | None =>
  match match_number s with
  | Some (v, r) => Scanned v r
  | None =>
  match literal_at "NaN" (JFloat (u "NaN")) s with
  | Some (v, r) => Scanned v r
  | None =>
  match literal_at "Infinity" (JFloat (u "Infinity")) s with
  | Some (v, r) => Scanned v r
  | None =>
  match literal_at "-Infinity" (JFloat (u "-Infinity")) s with
  | Some (v, r) => Scanned v r
  | None => DecodeError
  end end end end end end end.

(** The scanner [scan_once] with [JSONArray] and [JSONObject].
    [array_items] stands at the start of an element, [object_items] at the
    opening quote of a key; both carry what was read so far, last first. *)
Fixpoint scan_once (fuel : nat) (s : str) {struct fuel} : scan :=
  match fuel with
  | O => OutOfFuel
  | S f =>
      match s with
      | [] => DecodeError
      | c :: r =>
          if c =? dq then
            match scanstring r [] with
            | Some (v, r') => Scanned (JStr v) r'
            | None => DecodeError
            end
          else if c =? ch "{" then
            match skip_ws r with
            | c1 :: r1 =>
                if c1 =? ch "}" then Scanned (JObj []) r1
                else object_items f (c1 :: r1) []
            | [] => DecodeError
            end
          else if c =? ch "[" then
            match skip_ws r with
            | c1 :: r1 =>
                if c1 =? ch "]" then Scanned (JArr []) r1
                else array_items f (c1 :: r1) []
            | [] => DecodeError
            end
          else scan_constant s
      end
  end
with array_items (fuel : nat) (s : str) (acc : list json) {struct fuel} : scan :=
  match fuel with
  | O => OutOfFuel
  | S f =>
      match scan_once f s with
      | Scanned v r =>
          match skip_ws r with
          | c :: r1 =>
              if c =? ch "]" then Scanned (JArr (rev (v :: acc))) r1
              else if c =? ch "," then array_items f (skip_ws r1) (v :: acc)
              else DecodeError
          | [] => DecodeError
          end
      | other => other
      end
  end
with object_items (fuel : nat) (s : str) (acc : list (str * json)) {struct fuel} : scan :=
  match fuel with
  | O => OutOfFuel
  | S f =>
      match s with
      | c :: r =>
          if c =? dq then
            match scanstring r [] with
            | None => DecodeError
            | Some (k, r1) =>
                match skip_ws r1 with
                | c2 :: r2 =>
                    if c2 =? ch ":" then
                      match scan_once f (skip_ws r2) with
                      | Scanned v r3 =>
                          match skip_ws r3 with
                          | c4 :: r4 =>
                              if c4 =? ch "}"
                              then Scanned (JObj (dict_of_pairs (rev ((k, v) :: acc)))) r4
                              else if c4 =? ch ","
                              then object_items f (skip_ws r4) ((k, v) :: acc)
                              else DecodeError
                          | [] => DecodeError
                          end
                      | other => other
                      end
                    else DecodeError
                | [] => DecodeError
                end
            end
          else DecodeError
      | [] => DecodeError
      end
  end.

(** [json.loads(s)] for a [str]: one value, white space around it, nothing
    else.  [None] is [JSONDecodeError].  The budget is never the reason for
    a failure ([loads_fuel_enough] below); the interpreter's own limits on
    recursion depth and on the digits of an integer are not modelled. *)
Definition loads_fuel (s : str) : nat := 2 * length s + 2.

Definition loads (s : str) : option json :=
  match scan_once (loads_fuel s) (skip_ws s) with
  | Scanned v r => match skip_ws r with [] => Some v | _ :: _ => None end
  | _ => None
  end.

(** *** Encoding *)

Definition hexdigit (d : N) : N := if d <? 10 then 48 + d else 87 + d.

(** ['\\u{0:04x}'.format(n)] *)
Definition u_escape (n : N) : str :=
  [bs; ch "u"; hexdigit (N.land (N.shiftr n 12) 15); hexdigit (N.land (N.shiftr n 8) 15);
   hexdigit (N.land (N.shiftr n 4) 15); hexdigit (N.land n 15)].

(** One code point under [encode_basestring_ascii] ([ensure_ascii=True]). *)
Definition escape_char (c : N) : str :=
  if c =? dq then [bs; dq]
  else if c =? bs then [bs; bs]
  else if c =? 10 then [bs; ch "n"]
  else if c =? 13 then [bs; ch "r"]
  else if c =? 9 then [bs; ch "t"]
  else if c =? 12 then [bs; ch "f"]
  else if c =? 8 then [bs; ch "b"]
  else if (32 <=? c) && (c <=? 126) then [c]
  else if c <? 65536 then u_escape c
  else
    let n := c - 65536 in
    u_escape (N.lor 55296 (N.land (N.shiftr n 10) 1023))
    ++ u_escape (N.lor 56320 (N.land n 1023)).

Definition encode_basestring_ascii (s : str) : str :=
  dq :: flat_map escape_char s ++ [dq].

(** [json.dumps(l)] for a list of strings [l], default separators. *)
Definition dumps_strs (l : list str) : str :=
  ch "[" :: PyStr.join (u ", ") (map encode_basestring_ascii l) ++ [ch "]"].

End Json.

(** ** Exceptions, external services and the world a handler runs in *)

Inductive exn : Type :=
| TypeError
| AttributeError
| KeyError
| ValueError (msg : str)
| JSONDecodeError
| NotFound                    (* werkzeug's 404, raised by [get_or_404] *)
| StorageError                (* raised by the engine when a flush is refused *)
| UpstreamError (detail : str).  (* raised by the completion client *)

Inductive outcome (A : Type) : Type :=
| Val (a : A)
| Raise (e : exn).
Arguments Val {A} a.
Arguments Raise {A} e.

(** models/note.py, [class Note]: the attributes of a [Note] object.  An
    attribute holds whatever Python value was assigned to it ([JNull] is
    [None]); a timestamp is a number of microseconds. *)
Record Note : Type := mkNote {
  id : Z;
  title : json;
  content : json;
  tags : json;
  event_date : json;
  event_time : json;
  created_at : option Z;
  updated_at : option Z
}.

(** A request to the completion service.  [ChatCompletion] is the call made
    by [call_llm_model] (temperature and top_p stay at their defaults). *)
Inductive llm_request : Type :=
| ChatCompletion (model : str) (messages : list (str * json))
| ProcessUserNotes (language : json) (user_input : str).

(** What a handler does to the outside, in order. *)
Inductive event : Type :=
| SqlGet (note_id : Z)
| SqlSearch (query : str)
| SqlInsert (note_id : Z)
| SqlUpdate (note_id : Z)
| Completion (req : llm_request).

(** Everything the embedding takes from outside the repository: pieces of
    the Python runtime that are not computed here, the storage engine's
    [LIKE] query, the completion service, and the passing of time. *)
Class Env : Type := {
  (** [bool(x)] for the float written [lexeme] *)
  float_truthy : str -> bool;
  (** [str(x)] for a value [x] that is not a [str] *)
  py_repr : json -> str;
  (** [str(e)] for an exception *)
  exn_str : exn -> str;
  (** [datetime.isoformat] *)
  isoformat : Z -> str;
  (** the rows a search for [query] selects, most recently updated first *)
  search_rows : str -> gmap Z Note -> list Note;
  (** the answer of the completion service, given what happened before *)
  completion : list event -> llm_request -> outcome str;
  (** the clock reading that follows a reading *)
  elapse : Z -> Z
}.

Record world : Type := mkWorld {
  notes : gmap Z Note;      (* the committed rows of the note table, by id *)
  clock : Z;                (* what [datetime.utcnow()] returns next *)
  trace : list event
}.

(** A computation reads and changes the world and returns or raises. *)
Definition M (A : Type) : Type := world -> outcome A * world.

Definition ret {A} (a : A) : M A := fun w => (Val a, w).

Definition raise {A} (e : exn) : M A := fun w => (Raise e, w).

Definition bind {A B} (c : M A) (k : A -> M B) : M B :=
  fun w => match c w with
           | (Val a, w') => k a w'
           | (Raise e, w') => (Raise e, w')
           end.

Definition lift {A} (o : outcome A) : M A := fun w => (o, w).

(** [try: body except Exception as e: handler(e)] *)
Definition try_except {A} (body : M A) (handler : exn -> M A) : M A :=
  fun w => match body w with
           | (Val a, w') => (Val a, w')
           | (Raise e, w') => handler e w'
           end.

Notation "x <- c ;; k" := (bind c (fun x => k))
  (at level 100, c at next level, right associativity).

Definition log (e : event) : M unit :=
  fun w => (Val tt, mkWorld (notes w) (clock w) (trace w ++ [e])).

(** ** Python values at run time *)

Section Python.

Context `{Env}.

(** [bool(x)] *)
Definition truthy (x : json) : bool :=
  match x with
  | JNull => false
  | JBool b => b
  | JInt z => negb (Z.eqb z 0)
  | JFloat lexeme => float_truthy lexeme
  | JStr s => match s with [] => false | _ :: _ => true end
  | JArr items => match items with [] => false | _ :: _ => true end
  | JObj members => match members with [] => false | _ :: _ => true end
  end.

(** [a or b] *)
Definition py_or (a b : json) : json := if truthy a then a else b.

(** [str(x)] *)
Definition py_str (x : json) : str :=
  match x with
  | JStr s => s
  | _ => py_repr x
  end.

(** [k in x] for a string [k]: key of a dict, element of a list, substring
    of a string; anything else is not iterable. *)
Definition py_in (k : str) (x : json) : outcome bool :=
  match x with
  | JObj members =>
      Val (match Json.dict_lookup k members with Some _ => true | None => false end)
  | JArr items =>
      Val (existsb (fun y => match y with JStr s => PyStr.eqb k s | _ => false end) items)
  | JStr s => Val (PyStr.contains k s)
  | _ => Raise TypeError
  end.

(** [x.get(k, default)]: only a dict has [get]. *)
Definition py_get (x : json) (k : str) (default : json) : outcome json :=
  match x with
  | JObj members =>
      Val (match Json.dict_lookup k members with Some v => v | None => default end)
  | _ => Raise AttributeError
  end.

(** [x[k]] for a string [k] *)
Definition py_getitem (x : json) (k : str) : outcome json :=
  match x with
  | JObj members =>
      match Json.dict_lookup k members with Some v => Val v | None => Raise KeyError end
  | _ => Raise TypeError
  end.

(** [x.strip()]: only a string has [strip]. *)
Definition py_strip (x : json) : outcome str :=
  match x with
  | JStr s => Val (PyStr.strip s)
  | _ => Raise AttributeError
  end.

(** The elements [for t in x] goes through. *)
Definition py_iter (x : json) : outcome (list json) :=
  match x with
  | JArr items => Val items
  | JStr s => Val (map (fun c => JStr [c]) s)
  | JObj members => Val (map (fun kv => JStr (fst kv)) members)
  | _ => Raise TypeError
  end.

(** [x in allowed] for a set of strings: [x] is hashed first. *)
Definition py_in_set (x : json) (allowed : list str) : outcome bool :=
  match x with
  | JStr s => Val (existsb (PyStr.eqb s) allowed)
  | JArr _ | JObj _ => Raise TypeError
  | _ => Val false
  end.

(** [json.loads(x)] *)
Definition json_loads (x : json) : outcome json :=
  match x with
  | JStr s => match Json.loads s with Some v => Val v | None => Raise JSONDecodeError end
  | _ => Raise TypeError
  end.

End Python.

(** ** src/models/note.py *)

Section Model.

Context `{Env}.

Definition with_title (v : json) (n : Note) : Note :=
  mkNote (id n) v (content n) (tags n) (event_date n) (event_time n)
         (created_at n) (updated_at n).

Definition with_content (v : json) (n : Note) : Note :=
  mkNote (id n) (title n) v (tags n) (event_date n) (event_time n)
         (created_at n) (updated_at n).

Definition with_tags (v : json) (n : Note) : Note :=
  mkNote (id n) (title n) (content n) v (event_date n) (event_time n)
         (created_at n) (updated_at n).

Definition with_event_date (v : json) (n : Note) : Note :=
  mkNote (id n) (title n) (content n) (tags n) v (event_time n)
         (created_at n) (updated_at n).

Definition with_event_time (v : json) (n : Note) : Note :=
  mkNote (id n) (title n) (content n) (tags n) (event_date n) v
         (created_at n) (updated_at n).

(** The fallback of [get_tags_list]:
    [[t.strip() for t in str(self.tags).split(',') if t.strip()]] *)
Definition comma_separated (s : str) : list str :=
  List.filter (fun t => match t with [] => false | _ :: _ => true end)
              (map PyStr.strip (PyStr.split (Json.ch ",") s)).

(** [Note.get_tags_list], on the value of [self.tags].  Whatever
    [json.loads] raises is caught. *)
Definition get_tags_list (self_tags : json) : json :=
  if negb (truthy self_tags) then JArr []
  else
    match json_loads self_tags with
    | Val v => v
    | Raise _ => JArr (map JStr (comma_separated (py_str self_tags)))
    end.

(** [Note.set_tags_list]: the new value of [self.tags], unless iterating
    over [tags_list] raises. *)
Definition set_tags_list (tags_list : json) : outcome json :=
  if negb (truthy tags_list) then Val JNull
  else
    match py_iter tags_list with
    | Val items => Val (JStr (Json.dumps_strs (map py_str items)))
    | Raise e => Raise e
    end.

Definition iso_or_none (t : option Z) : json :=
  match t with
  | Some t' => JStr (isoformat t')
  | None => JNull
  end.

(** [Note.to_dict] *)
Definition to_dict (self : Note) : json :=
  JObj [ (u "id", JInt (id self));
         (u "title", title self);
         (u "content", content self);
         (u "tags", get_tags_list (tags self));
         (u "event_date", event_date self);
         (u "event_time", event_time self);
         (u "created_at", iso_or_none (created_at self));
         (u "updated_at", iso_or_none (updated_at self)) ].

(** *** The session and the engine

    The columns are declared as strings, [title] and [content] with
    [nullable=False].  The engine of the model is strict about it: a flush
    that binds anything but a string, or [None] where the column is
    nullable, is refused.  Lengths are not checked. *)
Definition is_string (v : json) : bool :=
  match v with JStr _ => true | _ => false end.

Definition string_or_none (v : json) : bool :=
  match v with JStr _ | JNull => true | _ => false end.

Definition row_ok (n : Note) : bool :=
  is_string (title n) && is_string (content n) && string_or_none (tags n)
  && string_or_none (event_date n) && string_or_none (event_time n).

(** [new == committed] for an attribute whose committed value is a string
    or [None]. *)
Definition same_value (new committed : json) : bool :=
  match new, committed with
  | JStr a, JStr b => PyStr.eqb a b
  | JNull, JNull => true
  | _, _ => false
  end.

(** No column of [new] differs from the committed row [old]. *)
Definition unchanged (new old : Note) : bool :=
  same_value (title new) (title old) && same_value (content new) (content old)
  && same_value (tags new) (tags old)
  && same_value (event_date new) (event_date old)
  && same_value (event_time new) (event_time old).

(** The primary key of the next row: one more than the largest in use. *)
Definition fresh_id (rows : gmap Z Note) : Z :=
  1 + map_fold (fun k (_ : Note) acc => Z.max k acc) 0%Z rows.

(** [datetime.utcnow()] *)
Definition utcnow : M Z :=
  fun w => (Val (clock w), mkWorld (notes w) (elapse (clock w)) (trace w)).

(** [Note.query.get_or_404(note_id)] *)
Definition get_or_404 (note_id : Z) : M Note :=
  _ <- log (SqlGet note_id) ;;
  fun w => match notes w !! note_id with
           | Some n => (Val n, w)
           | None => (Raise NotFound, w)
           end.

Definition store_row (n : Note) : M unit :=
  fun w => (Val tt, mkWorld (<[id n := n]> (notes w)) (clock w) (trace w)).

(** [db.session.add(note); db.session.commit()] for a new object: the
    engine assigns the key, and the column defaults of [created_at] and
    [updated_at] each read the clock.  Returns the row as committed. *)
Definition commit_new (n : Note) : M Note :=
  if row_ok n then
    i <- (fun w => (Val (fresh_id (notes w)), w)) ;;
    _ <- log (SqlInsert i) ;;
    t1 <- utcnow ;;
    t2 <- utcnow ;;
    let row := mkNote i (title n) (content n) (tags n) (event_date n) (event_time n)
                      (Some t1) (Some t2) in
    _ <- store_row row ;;
    ret row
  else raise StorageError.

(** [db.session.commit()] after attributes of the loaded object [old] were
    assigned, giving [new].  The unit of work compares every assigned
    attribute with its committed value and issues no SQL for an object
    without net change; [onupdate=datetime.utcnow] is evaluated as part of
    an UPDATE, so [updated_at] is refreshed only when some column differs.
    Returns the row as committed. *)
Definition commit_changes (old new : Note) : M Note :=
  if unchanged new old then ret old
  else if row_ok new then
    _ <- log (SqlUpdate (id old)) ;;
    t <- utcnow ;;
    let row := mkNote (id old) (title new) (content new) (tags new)
                      (event_date new) (event_time new)
                      (created_at old) (Some t) in
    _ <- store_row row ;;
    ret row
  else raise StorageError.

(** [db.session.rollback()]: pending changes live in the handler's object
    and never reached the table. *)
Definition rollback : M unit := ret tt.

End Model.

(** ** src/llm.py *)

Section Llm.

Context `{Env}.

Definition model : str := u "openai/gpt-4.1-mini".

(** [call_llm_model(model, messages)] *)
Definition call_llm_model (model : str) (messages : list (str * json)) : M str :=
  fun w =>
    let req := ChatCompletion model messages in
    (completion (trace w) req,
     mkWorld (notes w) (clock w) (trace w ++ [Completion req])).

(** [translate(language, text)] *)
Definition translate (language text : json) : M str :=
  call_llm_model model
    [ (u "system", JStr (u "Translate the following text to " ++ py_str language ++ u "."));
      (u "user", text) ].

(** Modelled from the spec: [llm.process_user_notes] is called by
    [generate_note] but is not defined in src/llm.py.  By the spec (4.3,
    generate_structured_note) it sends the language and the input to the
    completion service and returns the raw text of the answer; the prompt
    is not given, so the request is one of its own kind. *)
Definition process_user_notes (language : json) (user_input : str) : M str :=
  fun w =>
    let req := ProcessUserNotes language user_input in
    (completion (trace w) req,
     mkWorld (notes w) (clock w) (trace w ++ [Completion req])).

End Llm.

(** ** src/routes/note.py

    A handler is modelled from the point where [request.json] has been
    evaluated: [data] is that value, [JNull] when it is [None]. *)

Inductive body : Type :=
| JsonBody (v : json)
| EmptyBody
| ErrorPage.      (* the page the framework renders for an exception *)

Record response : Type := mkResponse { payload : body; status : Z }.

(** [jsonify(v), code] *)
Definition jsonify (v : json) (code : Z) : response := mkResponse (JsonBody v) code.

(** [{'error': msg}] *)
Definition error_body (msg : str) : json := JObj [(u "error", JStr msg)].

(** [re.search(r'\{.*\}', s, re.DOTALL)]: the match starts at the leftmost
    opening brace that has a closing brace after it, and the greedy [.*]
    runs to the last closing brace of the text. *)
Fixpoint upto_last_close (s : str) : option str :=
  match s with
  | [] => None
  | c :: r =>
      match upto_last_close r with
      | Some m => Some (c :: m)
      | None => if N.eqb c (Json.ch "}") then Some [c] else None
      end
  end.

Fixpoint re_search_braces (s : str) : option str :=
  match s with
  | [] => None
  | c :: r =>
      if N.eqb c (Json.ch "{") then
        match upto_last_close r with
        | Some m => Some (c :: m)
        | None => re_search_braces r
        end
      else re_search_braces r
  end.

Definition allowed_languages : list str := [u "Chinese"; u "English"; u "Japanese"].

(** [f'Unsupported language. Allowed: {sorted(list(allowed))}'] *)
Definition unsupported_language : str :=
  u "Unsupported language. Allowed: ['Chinese', 'English', 'Japanese']".

Section Routes.

Context `{Env}.

(** routes/note.py, lines 13-35 *)
Definition create_note (data : json) : M response :=
  let required := jsonify (error_body (u "Title and content are required")) 400 in
  try_except
    (if negb (truthy data) then ret required
     else
       has_title <- lift (py_in (u "title") data) ;;
       if negb has_title then ret required
       else
         has_content <- lift (py_in (u "content") data) ;;
         if negb has_content then ret required
         else
           t <- lift (py_getitem data (u "title")) ;;
           c <- lift (py_getitem data (u "content")) ;;
           tags_arg <- lift (py_get data (u "tags") JNull) ;;
           stored_tags <- lift (match tags_arg with
                                | JNull => Val JNull
                                | _ => set_tags_list tags_arg
                                end) ;;
           d <- lift (py_get data (u "event_date") JNull) ;;
           tm <- lift (py_get data (u "event_time") JNull) ;;
           row <- commit_new (mkNote 0 t c stored_tags d tm None None) ;;
           ret (jsonify (to_dict row) 201))
    (fun e => _ <- rollback ;; ret (jsonify (error_body (exn_str e)) 500)).

(** routes/note.py, lines 43-69 *)
Definition update_note (note_id : Z) (data : json) : M response :=
  try_except
    (note <- get_or_404 note_id ;;
     if negb (truthy data) then ret (jsonify (error_body (u "No data provided")) 400)
     else
       t <- lift (py_get data (u "title") (title note)) ;;
       c <- lift (py_get data (u "content") (content note)) ;;
       let note1 := with_content c (with_title t note) in
       has_tags <- lift (py_in (u "tags") data) ;;
       note2 <- (if has_tags
                 then tags_arg <- lift (py_get data (u "tags") JNull) ;;
                      stored_tags <- lift (set_tags_list tags_arg) ;;
                      ret (with_tags stored_tags note1)
                 else ret note1) ;;
       has_date <- lift (py_in (u "event_date") data) ;;
       note3 <- (if has_date
                 then d <- lift (py_get data (u "event_date") JNull) ;;
                      ret (with_event_date d note2)
                 else ret note2) ;;
       has_time <- lift (py_in (u "event_time") data) ;;
       note4 <- (if has_time
                 then tm <- lift (py_get data (u "event_time") JNull) ;;
                      ret (with_event_time tm note3)
                 else ret note3) ;;
       row <- commit_changes note note4 ;;
       ret (jsonify (to_dict row) 200))
    (fun e => _ <- rollback ;; ret (jsonify (error_body (exn_str e)) 500)).

(** routes/note.py, lines 83-97; [query] is [request.args.get('q', '')]. *)
Definition search_notes (query : str) : M response :=
  if negb (truthy (JStr query)) then ret (jsonify (JArr []) 200)
  else
    _ <- log (SqlSearch query) ;;
    rows <- (fun w => (Val (search_rows query (notes w)), w)) ;;
    ret (jsonify (JArr (map to_dict rows)) 200).

(** routes/note.py, lines 100-125 *)
Definition translate_note (note_id : Z) (data : json) : M response :=
  note <- get_or_404 note_id ;;
  let data := py_or data (JObj []) in
  language <- lift (py_get data (u "language") JNull) ;;
  allowed <- lift (py_in_set language allowed_languages) ;;
  if negb allowed then ret (jsonify (error_body unsupported_language) 400)
  else
    try_except
      (translated_title <- translate language (py_or (title note) (JStr [])) ;;
       translated_content <- translate language (py_or (content note) (JStr [])) ;;
       ret (jsonify (JObj [ (u "id", JInt (id note));
                            (u "title", JStr translated_title);
                            (u "content", JStr translated_content) ]) 200))
      (fun e => ret (jsonify (error_body (exn_str e)) 500)).

(** routes/note.py, lines 149-160: the two parsing attempts. *)
Definition parse_response (response_content : str) : outcome json :=
  match Json.loads response_content with
  | Some v => Val v
  | None =>
      match re_search_braces response_content with
      | Some m =>
          match Json.loads m with
          | Some v => Val v
          | None => Raise JSONDecodeError
          end
      | None => Raise (ValueError (u "Could not parse JSON from LLM response"))
      end
  end.

(** routes/note.py, lines 128-175 *)
Definition generate_note (data : json) : M response :=
  let data := py_or data (JObj []) in
  raw <- lift (py_get data (u "input") (JStr [])) ;;
  user_input <- lift (py_strip raw) ;;
  language <- lift (py_get data (u "language") (JStr (u "English"))) ;;
  if negb (truthy (JStr user_input))
  then ret (jsonify (error_body (u "Input text is required")) 400)
  else
    allowed <- lift (py_in_set language allowed_languages) ;;
    if negb allowed then ret (jsonify (error_body unsupported_language) 400)
    else
      let missing :=
        jsonify (error_body (u "Generated note is missing required fields")) 500 in
      try_except
        (response_content <- process_user_notes language user_input ;;
         note_data <- lift (parse_response response_content) ;;
         has_title <- lift (py_in (u "Title") note_data) ;;
         if negb has_title then ret missing
         else
           has_notes <- lift (py_in (u "Notes") note_data) ;;
           if negb has_notes then ret missing
           else
             t <- lift (py_get note_data (u "Title") (JStr [])) ;;
             c <- lift (py_get note_data (u "Notes") (JStr [])) ;;
             g <- lift (py_get note_data (u "Tags") (JArr [])) ;;
             ret (jsonify (JObj [ (u "title", t);
                                  (u "content", c);
                                  (u "tags", g);
                                  (u "original_input", JStr user_input) ]) 200))
        (fun e => ret (jsonify (error_body (u "Failed to generate note: " ++ exn_str e)) 500)).

(** What the framework makes of a handler: an exception that leaves it
    becomes an error page, 404 for [NotFound] and 500 otherwise. *)
Definition serve (handler : M response) (w : world) : response * world :=
  match handler w with
  | (Val r, w') => (r, w')
  | (Raise NotFound, w') => (mkResponse ErrorPage 404, w')
  | (Raise _, w') => (mkResponse ErrorPage 500, w')
  end.

End Routes.

(** ** The parsing protocol as the specification words it

    "Locate the first balanced object-like substring within the text and
    parse that": from an opening brace, count braces until the one that
    closes it; the leftmost opening brace for which this succeeds wins. *)

Module SpecText.

(** The text up to the brace that brings the depth back to zero. *)
Fixpoint balanced_prefix (depth : nat) (s : str) : option str :=
  match s with
  | [] => None
  | c :: r =>
      if N.eqb c (Json.ch "{") then option_map (cons c) (balanced_prefix (S depth) r)
      else if N.eqb c (Json.ch "}") then
        match depth with
        | O => Some [c]
        | S d => option_map (cons c) (balanced_prefix d r)
        end
      else option_map (cons c) (balanced_prefix depth r)
  end.

Fixpoint first_balanced_object (s : str) : option str :=
  match s with
  | [] => None
  | c :: r =>
      if N.eqb c (Json.ch "{") then
        match balanced_prefix 0 r with
        | Some m => Some (c :: m)
        | None => first_balanced_object r
        end
      else first_balanced_object r
  end.

(** Strict parsing of the whole text, then of the first balanced object. *)
Definition parse_response (response_content : str) : option json :=
  match Json.loads response_content with
  | Some v => Some v
  | None =>
      match first_balanced_object response_content with
      | Some m => Json.loads m
      | None => None
      end
  end.

End SpecText.

(** The parsed structure has the field [k]. *)
Definition has_field (k : str) (v : json) : bool :=
  match v with
  | JObj members => match Json.dict_lookup k members with Some _ => true | None => false end
  | _ => false
  end.

(** ** Well-formed text and well-formed rows *)

(** A Unicode scalar value: a code point that is not a surrogate. *)
Definition scalar_value (c : N) : Prop :=
  (c < 55296 \/ 57343 < c)%N /\ (c < 1114112)%N.

(** A string in the sense of the specification: Unicode text. *)
Definition unicode_text (s : str) : Prop := Forall scalar_value s.

(** What a Python [str] can hold. *)
Definition code_point (c : N) : Prop := (c < 1114112)%N.

(** No high surrogate is directly followed by a low surrogate. *)
Fixpoint no_surrogate_pair (s : str) : Prop :=
  match s with
  | [] => True
  | a :: r =>
      match r with
      | b :: _ => ~ (Json.is_high_surrogate a = true /\ Json.is_low_surrogate b = true)
      | [] => True
      end
      /\ no_surrogate_pair r
  end.

(** The strings [json.dumps] writes without loss: every [str] but those
    that hold a surrogate pair as two code points.  Unicode text is of this
    kind, and so is a [str] with lone surrogates. *)
Definition well_paired (s : str) : Prop := Forall code_point s /\ no_surrogate_pair s.

(** After the escape of a high surrogate, the decoder does not find the
    escape of a low surrogate at the head of [rest]. *)
Definition not_low_escape (rest : str) : Prop :=
  match rest with
  | b :: e2 :: g1 :: g2 :: g3 :: g4 :: _ =>
      (N.eqb b Json.bs && N.eqb e2 (Json.ch "u")) = true ->
      exists d, Json.hex4 g1 g2 g3 g4 = Some d /\ Json.is_low_surrogate d = false
  | _ => True
  end.

(** The table as this engine leaves it: every row sits under its own key
    and passed the column checks. *)
Definition table_ok (rows : gmap Z Note) : Prop :=
  forall i n, rows !! i = Some n -> id n = i /\ row_ok n = true.

(** ** A completion stub

    The handlers run on concrete requests against this environment: the
    completion service gives the same [answer] to every request, the clock
    moves by one at every reading.  It is used on requests without floats
    and without values other than strings among the tags. *)
Definition stub_env (answer : outcome str) : Env := {|
  float_truthy := fun _ => true;
  py_repr := fun _ => u "<repr>";
  exn_str := fun _ => u "<exception>";
  isoformat := fun _ => u "<timestamp>";
  search_rows := fun _ _ => [];
  completion := fun _ _ => answer;
  elapse := Z.succ
|}.

Definition empty_world : world := mkWorld ∅ 1000 [].

(** A stored note, and the table that holds just it. *)
Definition sample_note : Note :=
  mkNote 1 (JStr (u "Groceries")) (JStr (u "milk, eggs")) (JStr (js "['home']"))
         JNull JNull (Some 10%Z) (Some 20%Z).

Definition sample_world : world := mkWorld {[ 1%Z := sample_note ]} 1000 [].

(** Answers of the completion service: the structured note of the
    specification's example, a bare object, an object wrapped in prose, and
    an object followed by another pair of braces. *)
Definition meeting_input : str := u "Meeting with Bob tomorrow at 3pm, tag it work".

Definition meeting_answer : str :=
  js "{'Title':'Meeting with Bob','Notes':'...','Tags':['work']}".

Definition shopping_answer : str := js "{'Title':'Shopping','Notes':'Buy milk'}".

Definition wrapped_answer : str := js "Here it is: {'Title':'a','Notes':'b'} Enjoy.".

Definition trailing_answer : str := js "{'Title':'a','Notes':'b'} {}".

(** ** What a create and an update come to

    Closed forms of the two writing handlers on a JSON object, used to
    state and prove their properties (see [update_note_unfold]). *)

(** The value an assignment [x = data.get(k, old)] leaves in [x]. *)
Definition assigned (k : str) (members : list (str * json)) (old : json) : json :=
  match Json.dict_lookup k members with Some v => v | None => old end.

Section Summaries.

Context `{Env}.

Definition assigned_tags (members : list (str * json)) (old : json) : outcome json :=
  match Json.dict_lookup (u "tags") members with
  | Some v => set_tags_list v
  | None => Val old
  end.

Definition update_outcome (n : Note) (members : list (str * json)) (w : world)
  : outcome response * world :=
  let w1 := mkWorld (notes w) (clock w) (trace w ++ [SqlGet (id n)]) in
  match assigned_tags members (tags n) with
  | Raise e => (Val (jsonify (error_body (exn_str e)) 500), w1)
  | Val tg =>
      let new := mkNote (id n) (assigned (u "title") members (title n))
                        (assigned (u "content") members (content n)) tg
                        (assigned (u "event_date") members (event_date n))
                        (assigned (u "event_time") members (event_time n))
                        (created_at n) (updated_at n) in
      if unchanged new n then (Val (jsonify (to_dict n) 200), w1)
      else if row_ok new then
        let row := mkNote (id n) (title new) (content new) (tags new)
                          (event_date new) (event_time new)
                          (created_at n) (Some (clock w)) in
        (Val (jsonify (to_dict row) 200),
         mkWorld (<[id n := row]> (notes w)) (elapse (clock w))
                 (trace w ++ [SqlGet (id n)] ++ [SqlUpdate (id n)]))
      else (Val (jsonify (error_body (exn_str StorageError)) 500), w1)
  end.


(** A request that passes the two checks of [generate_note]: a string
    [input] that is not blank, and an allowed language (English when the
    key is absent). *)
Definition valid_generate_request (members : list (str * json)) (raw language : str) : Prop :=
  Json.dict_lookup (u "input") members = Some (JStr raw)
  /\ PyStr.strip raw <> []
  /\ assigned (u "language") members (JStr (u "English")) = JStr language
  /\ In language allowed_languages.

(** The world after the one call to the completion service. *)
Definition after_completion (w : world) (language raw : str) : world :=
  mkWorld (notes w) (clock w)
          (trace w ++ [Completion (ProcessUserNotes (JStr language) (PyStr.strip raw))]).

(** The parsed structure is an object with both required fields. *)
Definition structured_note (v : json) : bool :=
  has_field (u "Title") v && has_field (u "Notes") v.

End Summaries.

(** A decoding step that did not run out of budget and, when it scanned a
    value, consumed some text. *)
Definition scan_ok (res : Json.scan) (s : str) : Prop :=
  res <> Json.OutOfFuel
  /\ forall v r, res = Json.Scanned v r -> (length r < length s)%nat.

(** ** The other handlers of src/routes/note.py

    The event trace has no entry of its own for the unfiltered SELECT of
    [get_notes] and for the DELETE of [delete_note]; what they do shows in
    the answer and in the table. *)

(** [a <= b] on the values of a timestamp column; a row without timestamp
    sorts as the oldest. *)
Definition stamp_leb (a b : option Z) : bool :=
  match a, b with
  | None, _ => true
  | Some _, None => false
  | Some x, Some y => Z.leb x y
  end.

(** [a] may be listed before [b] under [ORDER BY updated_at DESC]. *)
Definition newer_first (a b : Note) : Prop :=
  stamp_leb (updated_at b) (updated_at a) = true.

#[global] Instance newer_first_dec : RelDecision newer_first :=
  fun a b => decide (stamp_leb (updated_at b) (updated_at a) = true).

Section OtherRoutes.

Context `{Env}.

(** [Note.query.order_by(Note.updated_at.desc()).all()]: the rows of the
    table, most recently updated first (the order among rows with the same
    timestamp is the engine's; here it is the one the sort leaves). *)
Definition all_by_updated_at (rows : gmap Z Note) : list Note :=
  merge_sort newer_first (map snd (map_to_list rows)).

(** routes/note.py, lines 7-11 *)
Definition get_notes : M response :=
  fun w => (Val (jsonify (JArr (map to_dict (all_by_updated_at (notes w)))) 200), w).

(** routes/note.py, lines 37-41 *)
Definition get_note (note_id : Z) : M response :=
  note <- get_or_404 note_id ;;
  ret (jsonify (to_dict note) 200).

(** [db.session.delete(note); db.session.commit()] *)
Definition commit_delete (n : Note) : M unit :=
  fun w => (Val tt, mkWorld (delete (id n) (notes w)) (clock w) (trace w)).

(** routes/note.py, lines 71-81 *)
Definition delete_note (note_id : Z) : M response :=
  try_except
    (note <- get_or_404 note_id ;;
     _ <- commit_delete note ;;
     ret (mkResponse EmptyBody 204))
    (fun e => _ <- rollback ;; ret (jsonify (error_body (exn_str e)) 500)).

End OtherRoutes.


(** The completion requests among the events of a trace. *)
Definition completions (events : list event) : list llm_request :=
  flat_map (fun e => match e with Completion req => [req] | _ => [] end) events.

(** The request [translate] sends for [text]. *)
Definition translation_request (language : str) (text : json) : llm_request :=
  ChatCompletion model
    [ (u "system", JStr (u "Translate the following text to " ++ language ++ u "."));
      (u "user", text) ].

Section MoreSummaries.

Context `{Env}.

(** The tags a create request stores: [None] unless the payload has a
    [tags] value other than [None], which goes through [set_tags_list]. *)
Definition created_tags (members : list (str * json)) : outcome json :=
  match Json.dict_lookup (u "tags") members with
  | None | Some JNull => Val JNull
  | Some v => set_tags_list v
  end.

(** The row a create request leaves in the table when the commit goes
    through. *)
Definition inserted_row (w : world) (t c tg d tm : json) : Note :=
  mkNote (fresh_id (notes w)) t c tg d tm (Some (clock w)) (Some (elapse (clock w))).

(** The world after that commit. *)
Definition after_insert (w : world) (row : Note) : world :=
  mkWorld (<[fresh_id (notes w) := row]> (notes w)) (elapse (elapse (clock w)))
          (trace w ++ [SqlInsert (fresh_id (notes w))]).

(** [create_note] on an object that has both required keys. *)
Definition create_outcome (members : list (str * json)) (t c : json) (w : world)
  : outcome response * world :=
  match created_tags members with
  | Raise e => (Val (jsonify (error_body (exn_str e)) 500), w)
  | Val tg =>
      let row := inserted_row w t c tg (assigned (u "event_date") members JNull)
                              (assigned (u "event_time") members JNull) in
      if row_ok row then (Val (jsonify (to_dict row) 201), after_insert w row)
      else (Val (jsonify (error_body (exn_str StorageError)) 500), w)
  end.

End MoreSummaries.

(** ** Requests

    The routes of the blueprint (routes/note.py, lines 7, 13, 37, 43, 71,
    83, 100 and 128), each with what its handler reads from the request. *)
Inductive request : Type :=
| GetNotes
| PostNote (data : json)
| GetNote (note_id : Z)
| PutNote (note_id : Z) (data : json)
| DeleteNote (note_id : Z)
| SearchNotes (query : str)
| TranslateNote (note_id : Z) (data : json)
| GenerateNote (data : json).

(** The requests that go to a handler without a commit. *)
Definition reads_only (r : request) : bool :=
  match r with
  | PostNote _ | PutNote _ _ | DeleteNote _ => false
  | _ => true
  end.


Section Requests.

Context `{Env}.

(** [translate_note] on a stored note and an allowed language. *)
Definition translation_outcome (n : Note) (language : str) (w : world)
  : outcome response * world :=
  let for_title := translation_request language (title n) in
  let for_content := translation_request language (content n) in
  let looked_up := trace w ++ [SqlGet (id n)] in
  match completion looked_up for_title with
  | Raise e =>
      (Val (jsonify (error_body (exn_str e)) 500),
       mkWorld (notes w) (clock w) (looked_up ++ [Completion for_title]))
  | Val translated_title =>
      let after := mkWorld (notes w) (clock w)
                     (looked_up ++ [Completion for_title; Completion for_content]) in
      match completion (looked_up ++ [Completion for_title]) for_content with
      | Raise e => (Val (jsonify (error_body (exn_str e)) 500), after)
      | Val translated_content =>
          (Val (jsonify (JObj [ (u "id", JInt (id n));
                                (u "title", JStr translated_title);
                                (u "content", JStr translated_content) ]) 200),
           after)
      end
  end.

Definition dispatch (r : request) : M response :=
  match r with
  | GetNotes => get_notes
  | PostNote data => create_note data
  | GetNote note_id => get_note note_id
  | PutNote note_id data => update_note note_id data
  | DeleteNote note_id => delete_note note_id
  | SearchNotes query => search_notes query
  | TranslateNote note_id data => translate_note note_id data
  | GenerateNote data => generate_note data
  end.

(** The answers to a sequence of requests, and the world they leave. *)
Fixpoint serve_all (rs : list request) (w : world) : list response * world :=
  match rs with
  | [] => ([], w)
  | r :: rest =>
      let (answer, w1) := serve (dispatch r) w in
      let (answers, w2) := serve_all rest w1 in
      (answer :: answers, w2)
  end.

End Requests.

(** A table with a second note, updated after the first. *)
Definition second_note : Note :=
  mkNote 2 (JStr (u "Call Bob")) (JStr (u "about the offer")) JNull
         (JStr (u "2025-01-31")) JNull (Some 30%Z) (Some 40%Z).

Definition two_notes_world : world :=
  mkWorld (<[ 2%Z := second_note ]> {[ 1%Z := sample_note ]}) 1000 [].

(** The first note after its content was replaced at clock reading 1000. *)
Definition bread_row : Note :=
  mkNote 1 (JStr (u "Groceries")) (JStr (u "bread")) (JStr (js "['home']"))
         JNull JNull (Some 10%Z) (Some 1000%Z).


Definition some_reading_requests : list request :=
  [ GetNotes;
    GetNote 1;
    SearchNotes (u "milk");
    TranslateNote 1 (JObj [(u "language", JStr (u "Japanese"))]);
    GenerateNote (JObj [(u "input", JStr (u "buy milk"))]) ].
(** * Properties *)

(** Runs the monadic plumbing of a handler symbolically. *)
Ltac run :=
  cbv beta iota zeta delta
    [bind ret raise lift try_except log get_or_404 utcnow store_row
     commit_new commit_changes rollback call_llm_model translate
     process_user_notes];
  cbn [notes clock trace fst snd].

(** Case analysis on the innermost scrutinee first. *)
Ltac split_matches :=
  repeat (match goal with
          | |- context [match ?x with _ => _ end] =>
              lazymatch x with
              | context [match _ with _ => _ end] => fail
              | _ => destruct x eqn:?
              end
          end; cbv beta iota).

(** Character constants stay folded under [simpl]. *)
Arguments Json.ch : simpl never.

(** ** Strings and dictionaries *)

Lemma PyStr_eqb_eq (a b : str) : PyStr.eqb a b = true <-> a = b.
Proof.
  revert b; induction a as [|x a IH]; intros [|y b]; simpl; try easy.
  rewrite andb_true_iff, N.eqb_eq, IH. split.
  - intros [-> ->]; reflexivity.
  - intros [= -> ->]; auto.
Qed.

Lemma PyStr_eqb_refl (a : str) : PyStr.eqb a a = true.
Proof. apply PyStr_eqb_eq; reflexivity. Qed.

Lemma existsb_eqb_In (s : str) (l : list str) :
  existsb (PyStr.eqb s) l = true <-> In s l.
Proof.
  rewrite existsb_exists. split.
  - intros [x [Hin Heq]]. apply PyStr_eqb_eq in Heq. subst; assumption.
  - intros Hin. exists s. split; [assumption | apply PyStr_eqb_refl].
Qed.

Lemma existsb_eqb_not_In (s : str) (l : list str) :
  ~ In s l -> existsb (PyStr.eqb s) l = false.
Proof.
  intros Hn. destruct (existsb (PyStr.eqb s) l) eqn:E; [|reflexivity].
  apply existsb_eqb_In in E. contradiction.
Qed.

(** ** The short-circuits of the handlers *)

Section Guards.

Context `{Env}.

Lemma update_note_falsy (w : world) (i : Z) (n : Note) (data : json) :
  notes w !! i = Some n ->
  truthy data = false ->
  update_note i data w =
    (Val (jsonify (error_body (u "No data provided")) 400),
     mkWorld (notes w) (clock w) (trace w ++ [SqlGet i])).
Proof.
  intros Hn Hd. unfold update_note. run.
  rewrite Hn, Hd. reflexivity.
Qed.


(** C7: a search with the empty query answers the empty list whatever the
    table holds and whatever the engine would select for it, and leaves the
    world as it was: no query is issued.  Every other query goes to the
    engine. *)
Theorem search_notes_empty_query (w : world) :
  search_notes [] w = (Val (jsonify (JArr []) 200), w)
  /\ forall q : str,
       q <> [] ->
       search_notes q w
       = (Val (jsonify (JArr (map to_dict (search_rows q (notes w)))) 200),
          mkWorld (notes w) (clock w) (trace w ++ [SqlSearch q])).
Proof.
  split; [reflexivity|].
  intros q Hq. destruct q as [|c q]; [congruence|].
  unfold search_notes. run. reflexivity.
Qed.

(** C8: translating an existing note into a language outside the allow-list
    is answered 400; the completion service is not called (the lookup of
    the note is the only event) and the table is untouched. *)
Theorem translate_note_rejects_other_languages
    (w : world) (i : Z) (n : Note) (members : list (str * json)) (language : str) :
  notes w !! i = Some n ->
  Json.dict_lookup (u "language") members = Some (JStr language) ->
  ~ In language allowed_languages ->
  translate_note i (JObj members) w =
    (Val (jsonify (error_body unsupported_language) 400),
     mkWorld (notes w) (clock w) (trace w ++ [SqlGet i])).
Proof.
  intros Hn Hl Hout.
  destruct members as [|m members]; [discriminate|].
  unfold translate_note. run.
  rewrite Hn.
  unfold py_or, truthy, py_get. rewrite Hl.
  unfold py_in_set. rewrite (existsb_eqb_not_In _ _ Hout). reflexivity.
Qed.

(** [translate_note] looks the note up outside any [try]: for an id that is
    not in the table the framework answers 404, whatever the payload. *)
Lemma translate_note_missing_id (w : world) (i : Z) (data : json) :
  notes w !! i = None ->
  serve (translate_note i data) w
  = (mkResponse ErrorPage 404, mkWorld (notes w) (clock w) (trace w ++ [SqlGet i])).
Proof.
  intros Hn. unfold serve, translate_note. run. rewrite Hn. reflexivity.
Qed.

End Guards.

(** ** Updating a note *)

Section Update.

Context `{Env}.

Lemma update_note_unfold (w : world) (n : Note) (members : list (str * json)) :
  notes w !! id n = Some n ->
  members <> [] ->
  update_note (id n) (JObj members) w = update_outcome n members w.
Proof.
  intros Hn Hne. destruct members as [|m members]; [congruence|].
  unfold update_note, update_outcome, assigned_tags, assigned. run.
  rewrite Hn. cbn [truthy negb py_get py_in].
  destruct (Json.dict_lookup (u "tags") (m :: members)) as [tv|] eqn:Htg;
    [destruct (set_tags_list tv) as [tg|e]; [|reflexivity]|];
    destruct (Json.dict_lookup (u "event_date") (m :: members));
    destruct (Json.dict_lookup (u "event_time") (m :: members));
    cbn [with_title with_content with_tags with_event_date with_event_time
         id title content tags event_date event_time created_at updated_at];
    destruct (unchanged _ n); try reflexivity;
    destruct (row_ok _); try reflexivity;
    cbn [notes clock trace]; rewrite <- app_assoc; reflexivity.
Qed.

Lemma same_value_refl (v : json) : string_or_none v = true -> same_value v v = true.
Proof.
  destruct v; simpl; try discriminate; auto using PyStr_eqb_refl.
Qed.

Lemma is_string_or_none (v : json) : is_string v = true -> string_or_none v = true.
Proof. destruct v; simpl; auto. Qed.

Lemma row_ok_fields (n : Note) :
  row_ok n = true ->
  is_string (title n) = true /\ is_string (content n) = true
  /\ string_or_none (tags n) = true /\ string_or_none (event_date n) = true
  /\ string_or_none (event_time n) = true.
Proof.
  unfold row_ok. rewrite !andb_true_iff. tauto.
Qed.

Lemma same_value_eq (a b : json) : same_value a b = true -> a = b.
Proof.
  destruct a, b; simpl; try discriminate; auto.
  intros E. apply PyStr_eqb_eq in E. congruence.
Qed.


(** An update that assigns one string to [title] or to [content]. *)
Lemma update_one_string (w : world) (n : Note) (k : str) (s : str) :
  notes w !! id n = Some n ->
  row_ok n = true ->
  k = u "title" \/ k = u "content" ->
  let new := if PyStr.eqb k (u "title") then with_title (JStr s) n
             else with_content (JStr s) n in
  exists r w' n',
    update_note (id n) (JObj [(k, JStr s)]) w = (Val r, w')
    /\ status r = 200%Z
    /\ notes w' !! id n = Some n'
    /\ title n' = title new /\ content n' = content new /\ tags n' = tags n
    /\ event_date n' = event_date n /\ event_time n' = event_time n
    /\ created_at n' = created_at n
    /\ (new <> n -> updated_at n' = Some (clock w))
    /\ (new = n -> n' = n /\ notes w' = notes w).
Proof.
  intros Hn Hok Hk new.
  destruct (row_ok_fields n Hok) as (Ht & Hc & Hg & Hd & Hm).
  rewrite update_note_unfold by (assumption || discriminate).
  assert (Et := same_value_refl _ (is_string_or_none _ Ht)).
  assert (Ec := same_value_refl _ (is_string_or_none _ Hc)).
  assert (Eg := same_value_refl _ Hg).
  assert (Ed := same_value_refl _ Hd).
  assert (Em := same_value_refl _ Hm).
  destruct n as [ni nt nc ng nd nm nca nua]; cbn [id title content tags event_date
    event_time created_at updated_at] in *.
  destruct Hk as [-> | ->]; subst new;
    unfold update_outcome, assigned_tags, assigned, unchanged, row_ok;
    cbn [Json.dict_lookup]; vm_compute PyStr.eqb;
    cbn [id title content tags event_date event_time created_at updated_at
         with_title with_content];
    rewrite ?Et, ?Ec, ?Eg, ?Ed, ?Em, ?Ht, ?Hc, ?Hg, ?Hd, ?Hm; cbn [andb is_string].
  - rewrite !andb_true_r.
    destruct (same_value (JStr s) nt) eqn:E.
    + apply same_value_eq in E. subst nt.
      eexists _, _, _. split; [reflexivity|]. cbn.
      repeat split; auto; try congruence.
      intros Hne; exfalso; apply Hne; reflexivity.
    + eexists _, _, _. split; [reflexivity|]. cbn [notes status jsonify].
      rewrite lookup_insert_eq.
      repeat split; auto;
        exfalso;
        match goal with Heq : _ = mkNote _ _ _ _ _ _ _ _ |- _ => injection Heq as <- end;
        simpl in E; rewrite PyStr_eqb_refl in E; discriminate.
  - rewrite !andb_true_r.
    destruct (same_value (JStr s) nc) eqn:E.
    + apply same_value_eq in E. subst nc.
      eexists _, _, _. split; [reflexivity|]. cbn.
      repeat split; auto; try congruence.
      intros Hne; exfalso; apply Hne; reflexivity.
    + eexists _, _, _. split; [reflexivity|]. cbn [notes status jsonify].
      rewrite lookup_insert_eq.
      repeat split; auto;
        exfalso;
        match goal with Heq : _ = mkNote _ _ _ _ _ _ _ _ |- _ => injection Heq as <- end;
        simpl in E; rewrite PyStr_eqb_refl in E; discriminate.
Qed.

(** What a successful update leaves in the table. *)
Lemma update_note_stored
    (w w' : world) (n : Note) (members : list (str * json)) (r : response) :
  notes w !! id n = Some n ->
  members <> [] ->
  update_note (id n) (JObj members) w = (Val r, w') ->
  status r = 200%Z ->
  exists tg n',
    assigned_tags members (tags n) = Val tg
    /\ notes w' !! id n = Some n'
    /\ title n' = assigned (u "title") members (title n)
    /\ content n' = assigned (u "content") members (content n)
    /\ tags n' = tg
    /\ event_date n' = assigned (u "event_date") members (event_date n)
    /\ event_time n' = assigned (u "event_time") members (event_time n).
Proof.
  intros Hn Hne Hrun Hst.
  rewrite update_note_unfold in Hrun by assumption.
  unfold update_outcome in Hrun.
  destruct (assigned_tags members (tags n)) as [tg|e].
  2:{ injection Hrun as <- <-. discriminate. }
  destruct (unchanged _ n) eqn:Hun.
  - injection Hrun as <- <-. exists tg, n. cbn [notes].
    unfold unchanged in Hun. rewrite !andb_true_iff in Hun.
    cbn [title content tags event_date event_time] in Hun.
    destruct Hun as ((((Ht & Hc) & Hg) & Hd) & Hm).
    apply same_value_eq in Ht, Hc, Hg, Hd, Hm. auto 10.
  - destruct (row_ok _).
    + injection Hrun as <- <-. eexists tg, _. cbn [notes].
      rewrite lookup_insert_eq. cbn. auto 10.
    + injection Hrun as <- <-. discriminate.
Qed.




(** C10: creation asks for a title and a content, an update does not keep
    them non-empty.  On an existing note, the payload [{title: ''}] is
    answered 200 and leaves the empty string as the stored title, and so
    does [{content: ''}] for the content; more generally every update that
    is answered 200 and whose payload gives the empty string for [title]
    (for [content]) stores it. *)
Theorem update_note_stores_empty_strings (w : world) (n : Note) :
  notes w !! id n = Some n ->
  row_ok n = true ->
  (exists r w' n',
      update_note (id n) (JObj [(u "title", JStr [])]) w = (Val r, w')
      /\ status r = 200%Z /\ notes w' !! id n = Some n' /\ title n' = JStr [])
  /\
  (exists r w' n',
      update_note (id n) (JObj [(u "content", JStr [])]) w = (Val r, w')
      /\ status r = 200%Z /\ notes w' !! id n = Some n' /\ content n' = JStr [])
  /\
  (forall (members : list (str * json)) (r : response) (w' : world),
      update_note (id n) (JObj members) w = (Val r, w') ->
      status r = 200%Z ->
      exists n',
        notes w' !! id n = Some n'
        /\ (Json.dict_lookup (u "title") members = Some (JStr []) -> title n' = JStr [])
        /\ (Json.dict_lookup (u "content") members = Some (JStr []) ->
            content n' = JStr [])).
Proof.
  intros Hn Hok. repeat split.
  - destruct (update_one_string w n (u "title") [] Hn Hok (or_introl eq_refl))
      as (r & w' & n' & Hrun & Hst & Hn' & Ht & _).
    exists r, w', n'. auto.
  - destruct (update_one_string w n (u "content") [] Hn Hok (or_intror eq_refl))
      as (r & w' & n' & Hrun & Hst & Hn' & _ & Hc & _).
    exists r, w', n'. auto.
  - intros members r w' Hrun Hst.
    assert (Hne : members <> []).
    { intros ->. rewrite (update_note_falsy w (id n) n (JObj []) Hn eq_refl) in Hrun.
      injection Hrun as <- _. discriminate. }
    destruct (update_note_stored w w' n members r Hn Hne Hrun Hst)
      as (tg & n' & _ & Hn' & Ht & Hc & _).
    exists n'. split; [assumption|].
    rewrite Ht, Hc. unfold assigned. split; intros ->; reflexivity.
Qed.

End Update.

(** ** Creating a note *)

Section Create.

Context `{Env}.


(** The guard of [create_note] on any payload: 400 exactly when the
    payload is falsy or the [in] test fails for one of the two keys. *)
Lemma create_note_guard (data : json) (w : world) :
  exists r w',
    create_note data w = (Val r, w')
    /\ (status r = 400%Z <->
        truthy data = false
        \/ py_in (u "title") data = Val false
        \/ (py_in (u "title") data = Val true /\ py_in (u "content") data = Val false)).
Proof.
  unfold create_note. run.
  destruct (truthy data) eqn:Hd; cbn [negb].
  2:{ eexists _, _. split; [reflexivity|]. cbn. tauto. }
  destruct (py_in (u "title") data) as [[|]|e] eqn:Ht; cbn [negb].
  2:{ eexists _, _. split; [reflexivity|]. cbn. tauto. }
  2:{ eexists _, _. split; [reflexivity|]. cbn.
      split; [discriminate|]. intros [?|[?|[? _]]]; discriminate. }
  destruct (py_in (u "content") data) as [[|]|e] eqn:Hc; cbn [negb].
  2:{ eexists _, _. split; [reflexivity|]. cbn. tauto. }
  2:{ eexists _, _. split; [reflexivity|]. cbn.
      split; [discriminate|]. intros [?|[?|[_ ?]]]; discriminate. }
  split_matches; (eexists _, _; split; [reflexivity|]); cbn [status jsonify];
    (split; [discriminate|]); intros [?|[?|[_ ?]]]; discriminate.
Qed.

(** The key given to a new row is not in use. *)
Lemma fresh_id_unused (rows : gmap Z Note) : rows !! fresh_id rows = None.
Proof.
  unfold fresh_id.
  assert (Hmax : forall k, is_Some (rows !! k) ->
            (k <= map_fold (fun k (_ : Note) acc => Z.max k acc) 0 rows)%Z).
  { apply (map_fold_weak_ind
             (fun r (m : gmap Z Note) => forall k, is_Some (m !! k) -> (k <= r)%Z)).
    - intros k [x Hx]. rewrite lookup_empty in Hx. discriminate.
    - intros i x m r Hi IH k Hk.
      destruct (decide (i = k)) as [->|Hne]; [lia|].
      rewrite lookup_insert_ne in Hk by assumption.
      specialize (IH k Hk). lia. }
  destruct (rows !! _) eqn:E; [|reflexivity].
  specialize (Hmax _ (ex_intro _ _ E)). lia.
Qed.


End Create.

(** ** Generating a note *)

(** *** The regular expression *)

Lemma upto_last_close_None (s : str) :
  upto_last_close s = None <-> ~ In (Json.ch "}") s.
Proof.
  induction s as [|c r IH]; simpl.
  - tauto.
  - destruct (upto_last_close r) as [m|].
    + split; [discriminate|]. intros Hn. exfalso.
      assert (Some m = None) by (apply IH; tauto). discriminate.
    + destruct (N.eqb_spec c (Json.ch "}")) as [->|Hne].
      * split; [discriminate|]. intros Hn. exfalso. apply Hn. auto.
      * split; [|reflexivity]. intros _ [E|Hin]; [congruence|]. now apply IH.
Qed.

Lemma upto_last_close_Some (s m : str) :
  upto_last_close s = Some m <->
  exists mid post,
    m = mid ++ [Json.ch "}"] /\ s = m ++ post /\ ~ In (Json.ch "}") post.
Proof.
  split.
  - revert m. induction s as [|c r IH]; simpl; intros m; [discriminate|].
    destruct (upto_last_close r) as [m'|] eqn:E.
    + intros [= <-]. destruct (IH m' eq_refl) as (mid & post & -> & -> & Hp).
      exists (c :: mid), post. repeat split; auto.
    + destruct (N.eqb_spec c (Json.ch "}")) as [->|Hne]; [|discriminate].
      intros [= <-]. exists [], r. repeat split; auto.
      now apply upto_last_close_None.
  - intros (mid & post & -> & -> & Hp). induction mid as [|x mid IH]; simpl.
    + apply upto_last_close_None in Hp. rewrite Hp. reflexivity.
    + simpl in IH. rewrite IH. reflexivity.
Qed.

(** The match of [\{.*\}] runs from the first opening brace of the text to
    its last closing brace. *)
Lemma re_search_braces_Some (s m : str) :
  re_search_braces s = Some m <->
  exists pre mid post,
    s = pre ++ m ++ post
    /\ m = Json.ch "{" :: mid ++ [Json.ch "}"]
    /\ ~ In (Json.ch "{") pre
    /\ ~ In (Json.ch "}") post.
Proof.
  split.
  - revert m. induction s as [|c r IH]; simpl; intros m; [discriminate|].
    destruct (N.eqb_spec c (Json.ch "{")) as [->|Hne].
    + destruct (upto_last_close r) as [m'|] eqn:E.
      * intros [= <-]. apply upto_last_close_Some in E.
        destruct E as (mid & post & -> & -> & Hp).
        exists [], mid, post. repeat split; auto.
      * intros Hs. exfalso. apply upto_last_close_None in E. apply E.
        destruct (IH m Hs) as (pre & mid & post & -> & -> & _).
        rewrite in_app_iff. right. simpl. right.
        rewrite !in_app_iff. left. right. simpl. auto.
    + intros Hs. destruct (IH m Hs) as (pre & mid & post & -> & -> & Hpre & Hpost).
      exists (c :: pre), mid, post. repeat split; auto.
      intros [E|Hin]; [congruence | contradiction].
  - intros (pre & mid & post & -> & -> & Hpre & Hpost).
    induction pre as [|x pre IH]; simpl.
    + assert (E : upto_last_close ((mid ++ [Json.ch "}"]) ++ post)
                  = Some (mid ++ [Json.ch "}"])).
      { apply upto_last_close_Some. exists mid, post. auto. }
      simpl in E. rewrite E. reflexivity.
    + destruct (N.eqb_spec x (Json.ch "{")) as [->|Hne].
      * exfalso. apply Hpre. simpl; auto.
      * apply IH. intros Hin. apply Hpre. simpl; auto.
Qed.

Lemma re_search_braces_None (s : str) :
  re_search_braces s = None <->
  ~ exists pre mid post,
      s = pre ++ (Json.ch "{" :: mid ++ [Json.ch "}"]) ++ post.
Proof.
  split.
  - intros Hs (pre & mid & post & ->).
    revert Hs. induction pre as [|x pre IH]; simpl.
    + assert (E : upto_last_close (mid ++ Json.ch "}" :: post) <> None).
      { rewrite upto_last_close_None. intros Hn. apply Hn.
        rewrite in_app_iff. right. simpl; auto. }
      rewrite <- app_assoc. simpl.
      destruct (upto_last_close (mid ++ Json.ch "}" :: post)); [discriminate|].
      congruence.
    + destruct (N.eqb x (Json.ch "{")); [|assumption].
      destruct (upto_last_close _); [discriminate | assumption].
  - intros Hn. destruct (re_search_braces s) as [m|] eqn:E; [|reflexivity].
    exfalso. apply Hn. apply re_search_braces_Some in E.
    destruct E as (pre & mid & post & -> & -> & _). eauto.
Qed.

(** *** The handler *)

Section Generate.

Context `{Env}.

Lemma generate_note_parsed
    (members : list (str * json)) (raw language : str) (w : world) (answer : str) :
  valid_generate_request members raw language ->
  completion (trace w) (ProcessUserNotes (JStr language) (PyStr.strip raw)) = Val answer ->
  generate_note (JObj members) w =
    try_except
      (note_data <- lift (parse_response answer) ;;
       has_title <- lift (py_in (u "Title") note_data) ;;
       if negb has_title
       then ret (jsonify (error_body (u "Generated note is missing required fields")) 500)
       else
         has_notes <- lift (py_in (u "Notes") note_data) ;;
         if negb has_notes
         then ret (jsonify (error_body (u "Generated note is missing required fields")) 500)
         else
           t <- lift (py_get note_data (u "Title") (JStr [])) ;;
           c <- lift (py_get note_data (u "Notes") (JStr [])) ;;
           g <- lift (py_get note_data (u "Tags") (JArr [])) ;;
           ret (jsonify (JObj [ (u "title", t);
                                (u "content", c);
                                (u "tags", g);
                                (u "original_input", JStr (PyStr.strip raw)) ]) 200))
      (fun e => ret (jsonify (error_body (u "Failed to generate note: " ++ exn_str e)) 500))
      (after_completion w language raw).
Proof.
  intros (Hin & Hraw & Hlang & Hok) Hans.
  destruct members as [|m members]; [discriminate|].
  unfold generate_note, after_completion. run.
  unfold py_or. cbn [truthy py_get]. rewrite Hin. cbn [py_strip].
  unfold assigned in Hlang. rewrite Hlang.
  destruct (PyStr.strip raw) eqn:Es; [congruence|]. cbn [truthy negb py_in_set].
  rewrite (proj2 (existsb_eqb_In _ _) Hok). cbn [negb].
  rewrite Hans. reflexivity.
Qed.

(** C1, as the code has it: for a request whose input is not blank once
    trimmed and whose language is allowed, when the completion service
    answers a text that parses as a JSON object with the keys Title and
    Notes, the handler answers 200 with that title, that body as content,
    the value of Tags (the empty list when the key is absent) and the
    trimmed input; the table of notes is unchanged, the only event being
    the call to the service. *)
Theorem generate_note_returns_the_parsed_note
    (members : list (str * json)) (raw language : str) (w : world)
    (answer : str) (obj : list (str * json)) (t c : json) :
  valid_generate_request members raw language ->
  completion (trace w) (ProcessUserNotes (JStr language) (PyStr.strip raw)) = Val answer ->
  Json.loads answer = Some (JObj obj) ->
  Json.dict_lookup (u "Title") obj = Some t ->
  Json.dict_lookup (u "Notes") obj = Some c ->
  generate_note (JObj members) w =
    (Val (jsonify (JObj [ (u "title", t);
                          (u "content", c);
                          (u "tags", assigned (u "Tags") obj (JArr []));
                          (u "original_input", JStr (PyStr.strip raw)) ]) 200),
     after_completion w language raw)
  /\ notes (after_completion w language raw) = notes w.
Proof.
  intros Hreq Hans Hparse Ht Hc. split; [|reflexivity].
  rewrite (generate_note_parsed members raw language w answer Hreq Hans).
  unfold parse_response. rewrite Hparse. run.
  cbn [py_in py_get]. rewrite Ht, Hc. reflexivity.
Qed.

(** C3, as the code has it: the answer of the completion service is first
    parsed as a whole; when that fails, the text from its first opening
    brace to its last closing brace is parsed instead (and there is no
    second attempt when no such text exists).  The handler answers 500
    exactly when both attempts fail or the parsed value is not an object
    with the keys Title and Notes, and 200 otherwise. *)
Theorem generate_note_parsing_protocol
    (members : list (str * json)) (raw language : str) (w : world) (answer : str) :
  valid_generate_request members raw language ->
  completion (trace w) (ProcessUserNotes (JStr language) (PyStr.strip raw)) = Val answer ->
  (forall v, Json.loads answer = Some v -> parse_response answer = Val v)
  /\ (forall pre mid post,
        Json.loads answer = None ->
        answer = pre ++ (Json.ch "{" :: mid ++ [Json.ch "}"]) ++ post ->
        ~ In (Json.ch "{") pre -> ~ In (Json.ch "}") post ->
        parse_response answer = json_loads (JStr (Json.ch "{" :: mid ++ [Json.ch "}"])))
  /\ (Json.loads answer = None ->
      (~ exists pre mid post,
           answer = pre ++ (Json.ch "{" :: mid ++ [Json.ch "}"]) ++ post) ->
      exists e, parse_response answer = Raise e)
  /\ exists r,
       generate_note (JObj members) w = (Val r, after_completion w language raw)
       /\ (status r = 500%Z <->
           (exists e, parse_response answer = Raise e)
           \/ (exists v, parse_response answer = Val v /\ structured_note v = false))
       /\ (status r = 200%Z <->
           exists v, parse_response answer = Val v /\ structured_note v = true).
Proof.
  intros Hreq Hans. repeat split.
  - intros v Hv. unfold parse_response. rewrite Hv. reflexivity.
  - intros pre mid post Hno -> Hpre Hpost. unfold parse_response.
    rewrite Hno.
    assert (E : re_search_braces
                  (pre ++ (Json.ch "{" :: mid ++ [Json.ch "}"]) ++ post)
                = Some (Json.ch "{" :: mid ++ [Json.ch "}"])).
    { apply re_search_braces_Some. exists pre, mid, post. auto. }
    rewrite E. reflexivity.
  - intros Hno Hnone. apply re_search_braces_None in Hnone.
    unfold parse_response. rewrite Hno, Hnone. eauto.
  - rewrite (generate_note_parsed members raw language w answer Hreq Hans).
    run. unfold structured_note.
    destruct (parse_response answer) as [v|e].
    2:{ eexists. split; [reflexivity|]. cbn [status jsonify]. split.
        - split; [eauto | reflexivity].
        - split; [discriminate|]. intros (v & Hv & _). discriminate. }
    assert (Hbad : forall r : response, status r = 500%Z ->
              has_field (u "Title") v && has_field (u "Notes") v = false ->
              (status r = 500%Z <->
               (exists e, Val v = Raise e)
               \/ (exists v0, Val v = Val v0
                    /\ has_field (u "Title") v0 && has_field (u "Notes") v0 = false))
              /\ (status r = 200%Z <->
                  exists v0, Val v = Val v0
                    /\ has_field (u "Title") v0 && has_field (u "Notes") v0 = true)).
    { intros r Hr Hf. rewrite Hr. split.
      - split; [|reflexivity]. intros _. right. eauto.
      - split; [discriminate|]. intros (v0 & [= <-] & Hv). congruence. }
    destruct v as [| b | z | lx | s | items | obj]; cbn [py_in py_get];
      try (eexists; split; [reflexivity|]; apply Hbad; reflexivity).
    + destruct (PyStr.contains (u "Title") s); cbn [negb];
        [destruct (PyStr.contains (u "Notes") s); cbn [negb]|];
        eexists; (split; [reflexivity|]); apply Hbad; reflexivity.
    + destruct (existsb _ items); cbn [negb];
        [destruct (existsb _ items); cbn [negb]|];
        eexists; (split; [reflexivity|]); apply Hbad; reflexivity.
    + cbn [has_field] in Hbad |- *.
      destruct (Json.dict_lookup (u "Title") obj) as [t|] eqn:Et; cbn [negb].
      2:{ eexists; split; [reflexivity|]; apply Hbad; reflexivity. }
      destruct (Json.dict_lookup (u "Notes") obj) as [c|] eqn:Ec; cbn [negb].
      2:{ eexists; split; [reflexivity|]; apply Hbad; reflexivity. }
      assert (Hboth : has_field (u "Title") (JObj obj)
                      && has_field (u "Notes") (JObj obj) = true).
      { cbn [has_field]. rewrite Et, Ec. reflexivity. }
      eexists; split; [reflexivity|]. cbn [status jsonify]. split.
      * split; [discriminate|].
        intros [(e & He) | (v0 & [= <-] & Hv)]; congruence.
      * split; eauto.
Qed.

End Generate.

(** ** The recursion budget of the decoder *)

Section Fuel.

Local Open Scope nat_scope.

Lemma skip_ws_length (s : str) : length (Json.skip_ws s) <= length s.
Proof.
  induction s as [|c r IH]; cbn [Json.skip_ws length]; [lia|].
  destruct (Json.is_ws c); cbn [length]; lia.
Qed.

Lemma scanstring_shrinks (n : nat) :
  forall (s acc v r : str),
    length s <= n ->
    Json.scanstring s acc = Some (v, r) -> length r < length s.
Proof.
  induction n as [|n IH]; intros s acc v r Hlen.
  - destruct s; [discriminate | cbn in Hlen; lia].
  - destruct s as [|c s]; [discriminate|]. cbn [length] in Hlen.
    assert (Hrec : forall s' acc', length s' <= length s ->
              Json.scanstring s' acc' = Some (v, r) -> length r < S (length s)).
    { intros s' acc' Hs' Hscan. apply IH in Hscan; lia. }
    cbn [Json.scanstring length].
    destruct (N.eqb c Json.dq); [intros [= <- <-]; lia|].
    destruct (N.eqb c Json.bs).
    2:{ destruct (N.ltb c 32); [discriminate|]. apply Hrec; lia. }
    destruct s as [|e r1]; [discriminate|].
    destruct (N.eqb e (Json.ch "u")).
    2:{ destruct (Json.backslash e); [|discriminate]. apply Hrec; cbn; lia. }
    destruct r1 as [|h1 [|h2 [|h3 [|h4 r2]]]]; try discriminate.
    destruct (Json.hex4 h1 h2 h3 h4) as [uni|]; [|discriminate].
    destruct (Json.is_high_surrogate uni); [|apply Hrec; cbn; lia].
    destruct r2 as [|b [|e2 [|g1 [|g2 [|g3 [|g4 r3]]]]]];
      try (apply Hrec; cbn; lia).
    destruct (N.eqb b Json.bs && N.eqb e2 (Json.ch "u")); [|apply Hrec; cbn; lia].
    destruct (Json.hex4 g1 g2 g3 g4) as [uni2|]; [|discriminate].
    destruct (Json.is_low_surrogate uni2); apply Hrec; cbn; lia.
Qed.

Lemma span_digits_length (s : str) :
  length (snd (Json.span_digits s)) <= length s.
Proof.
  induction s as [|c r IH]; cbn [Json.span_digits]; [cbn; lia|].
  destruct (Json.is_digit c); [|cbn; lia].
  destruct (Json.span_digits r) as [ds r']. cbn [snd length] in *. lia.
Qed.

Lemma match_int_shrinks (s ip r : str) :
  Json.match_int s = Some (ip, r) -> length r < length s.
Proof.
  destruct s as [|c s]; cbn [Json.match_int]; [discriminate|].
  destruct (N.eqb c (Json.ch "0")); [intros [= <- <-]; cbn; lia|].
  destruct (Json.is_digit c); [|discriminate].
  pose proof (span_digits_length s) as Hs.
  destruct (Json.span_digits s) as [ds r']. intros [= <- <-]. cbn in *. lia.
Qed.

Lemma match_frac_length (s : str) : length (snd (Json.match_frac s)) <= length s.
Proof.
  destruct s as [|c s]; cbn [Json.match_frac]; [cbn; lia|].
  destruct (N.eqb c (Json.ch ".")); [|cbn; lia].
  pose proof (span_digits_length s) as Hs.
  destruct (Json.span_digits s) as [[|d ds] r']; cbn in *; lia.
Qed.

Lemma match_exp_length (s : str) : length (snd (Json.match_exp s)) <= length s.
Proof.
  destruct s as [|c s]; cbn [Json.match_exp]; [cbn; lia|].
  destruct (N.eqb c (Json.ch "e") || N.eqb c (Json.ch "E")); [|cbn; lia].
  destruct s as [|g r0].
  - cbn. lia.
  - destruct (N.eqb g (Json.ch "-") || N.eqb g (Json.ch "+")).
    + pose proof (span_digits_length r0) as Hs.
      destruct (Json.span_digits r0) as [[|d ds] r']; cbn in *; lia.
    + pose proof (span_digits_length (g :: r0)) as Hs.
      destruct (Json.span_digits (g :: r0)) as [[|d ds] r']; cbn in *; lia.
Qed.

Lemma match_number_shrinks (s r : str) (v : json) :
  Json.match_number s = Some (v, r) -> length r < length s.
Proof.
  unfold Json.match_number.
  set (p := match s with
            | [] => (false, s)
            | c :: r0 => if N.eqb c (Json.ch "-") then (true, r0) else (false, s)
            end).
  assert (Hp : length (snd p) <= length s).
  { subst p. destruct s as [|c r0]; [cbn; lia|].
    destruct (N.eqb c (Json.ch "-")); cbn; lia. }
  destruct p as [neg s1]. cbn [snd] in Hp.
  destruct (Json.match_int s1) as [[ip r1]|] eqn:Hint; [|discriminate].
  apply match_int_shrinks in Hint.
  pose proof (match_frac_length r1) as Hf.
  destruct (Json.match_frac r1) as [frac r2]. cbn [snd] in Hf.
  pose proof (match_exp_length r2) as He.
  destruct (Json.match_exp r2) as [ex r3]. cbn [snd] in He.
  destruct frac, ex; intros [= <- <-]; lia.
Qed.

Lemma startswith_length (p s : str) :
  PyStr.startswith p s = true -> length p <= length s.
Proof.
  revert s. induction p as [|x p IH]; intros [|y s]; cbn; try lia; try discriminate.
  rewrite andb_true_iff. intros [_ Hs]. apply IH in Hs. lia.
Qed.

Lemma literal_at_shrinks (word : string) (v v' : json) (s r : str) :
  u word <> [] ->
  Json.literal_at word v s = Some (v', r) -> length r < length s.
Proof.
  intros Hw. unfold Json.literal_at.
  destruct (PyStr.startswith (u word) s) eqn:Hs; [|discriminate].
  apply startswith_length in Hs. intros [= <- <-].
  rewrite length_skipn. destruct (u word); [congruence|]. cbn [length] in *. lia.
Qed.

Lemma scan_constant_shrinks (s r : str) (v : json) :
  Json.scan_constant s = Json.Scanned v r -> length r < length s.
Proof.
  unfold Json.scan_constant.
  repeat match goal with
         | |- context [Json.literal_at ?w ?x s] =>
             let E := fresh "E" in
             destruct (Json.literal_at w x s) as [[? ?]|] eqn:E;
             [apply literal_at_shrinks in E; [|discriminate];
              intros [= <- <-]; exact E|]
         | |- context [Json.match_number s] =>
             let E := fresh "E" in
             destruct (Json.match_number s) as [[? ?]|] eqn:E;
             [apply match_number_shrinks in E; intros [= <- <-]; exact E|]
         end.
  discriminate.
Qed.

Lemma scan_constant_fuel (s : str) : Json.scan_constant s <> Json.OutOfFuel.
Proof.
  unfold Json.scan_constant.
  repeat match goal with
         | |- context [match ?x with Some _ => _ | None => _ end] =>
             destruct x as [[? ?]|]; [discriminate|]
         end.
  discriminate.
Qed.

Lemma scan_fuel_enough (n : nat) :
  (forall s, 2 * length s < n -> scan_ok (Json.scan_once n s) s)
  /\ (forall s acc, 2 * length s + 1 < n -> scan_ok (Json.array_items n s acc) s)
  /\ (forall s acc, 2 * length s + 1 < n -> scan_ok (Json.object_items n s acc) s).
Proof.
  induction n as [|f (IHs & IHa & IHo)].
  { repeat split; intros; lia. }
  assert (Hdec : forall s, scan_ok Json.DecodeError s).
  { intros s. split; [discriminate | intros; discriminate]. }
  assert (Hdone : forall v r s, length r < length s -> scan_ok (Json.Scanned v r) s).
  { intros v r s Hr. split; [discriminate|]. intros v' r' [= <- <-]. exact Hr. }
  assert (Hmono : forall res s s', scan_ok res s' -> length s' <= length s ->
                                   scan_ok res s).
  { intros res s s' [Hf Hsh] Hle. split; [exact Hf|].
    intros v r Hres. specialize (Hsh v r Hres). lia. }
  split; [|split].
  - (* scan_once *)
    intros s Hlen. cbn [Json.scan_once].
    destruct s as [|c r]; [apply Hdec|]. cbn [length] in Hlen.
    destruct (N.eqb c Json.dq).
    { destruct (Json.scanstring r []) as [[v r']|] eqn:E; [|apply Hdec].
      apply (scanstring_shrinks _ _ _ _ _ (le_n _)) in E.
      apply Hdone. cbn; lia. }
    destruct (N.eqb c (Json.ch "{")).
    { pose proof (skip_ws_length r) as Hw.
      destruct (Json.skip_ws r) as [|c1 r1]; [apply Hdec|]. cbn [length] in Hw.
      destruct (N.eqb c1 (Json.ch "}")); [apply Hdone; cbn; lia|].
      apply Hmono with (s' := c1 :: r1); [|cbn; lia].
      apply IHo. cbn; lia. }
    destruct (N.eqb c (Json.ch "[")).
    { pose proof (skip_ws_length r) as Hw.
      destruct (Json.skip_ws r) as [|c1 r1]; [apply Hdec|]. cbn [length] in Hw.
      destruct (N.eqb c1 (Json.ch "]")); [apply Hdone; cbn; lia|].
      apply Hmono with (s' := c1 :: r1); [|cbn; lia].
      apply IHa. cbn; lia. }
    split; [apply scan_constant_fuel | intros v0 r0; apply scan_constant_shrinks].
  - (* array_items *)
    intros s acc Hlen. cbn [Json.array_items].
    destruct (IHs s ltac:(lia)) as [Hf Hsh].
    destruct (Json.scan_once f s) as [v r| |]; [|apply Hdec|congruence].
    specialize (Hsh v r eq_refl).
    pose proof (skip_ws_length r) as Hw.
    destruct (Json.skip_ws r) as [|c r1]; [apply Hdec|]. cbn [length] in Hw.
    destruct (N.eqb c (Json.ch "]")); [apply Hdone; lia|].
    destruct (N.eqb c (Json.ch ",")); [|apply Hdec].
    pose proof (skip_ws_length r1) as Hw1.
    apply Hmono with (s' := Json.skip_ws r1); [|lia].
    apply IHa. lia.
  - (* object_items *)
    intros s acc Hlen. cbn [Json.object_items].
    destruct s as [|c r]; [apply Hdec|]. cbn [length] in Hlen.
    destruct (N.eqb c Json.dq); [|apply Hdec].
    destruct (Json.scanstring r []) as [[k r1]|] eqn:E; [|apply Hdec].
    apply (scanstring_shrinks _ _ _ _ _ (le_n _)) in E.
    pose proof (skip_ws_length r1) as Hw1.
    destruct (Json.skip_ws r1) as [|c2 r2]; [apply Hdec|]. cbn [length] in Hw1.
    destruct (N.eqb c2 (Json.ch ":")); [|apply Hdec].
    pose proof (skip_ws_length r2) as Hw2.
    destruct (IHs (Json.skip_ws r2) ltac:(lia)) as [Hf Hsh].
    destruct (Json.scan_once f (Json.skip_ws r2)) as [v r3| |];
      [|apply Hdec|congruence].
    specialize (Hsh v r3 eq_refl).
    pose proof (skip_ws_length r3) as Hw3.
    destruct (Json.skip_ws r3) as [|c4 r4]; [apply Hdec|]. cbn [length] in Hw3.
    destruct (N.eqb c4 (Json.ch "}")); [apply Hdone; cbn; lia|].
    destruct (N.eqb c4 (Json.ch ",")); [|apply Hdec].
    pose proof (skip_ws_length r4) as Hw4.
    apply Hmono with (s' := Json.skip_ws r4); [|cbn; lia].
    apply IHo. lia.
Qed.

(** The recursion budget of [json.loads] is never what makes it fail. *)
Lemma loads_fuel_enough (s : str) :
  Json.scan_once (Json.loads_fuel s) (Json.skip_ws s) <> Json.OutOfFuel.
Proof.
  pose proof (skip_ws_length s) as Hw.
  apply (proj1 (scan_fuel_enough (Json.loads_fuel s))).
  unfold Json.loads_fuel. lia.
Qed.

End Fuel.

(** ** The tag codec *)

Section Codec.

Local Open Scope N_scope.

(** *** Hexadecimal escapes *)

Lemma hexval_hexdigit (d : N) : d < 16 -> Json.hexval (Json.hexdigit d) = Some d.
Proof.
  intros Hd.
  destruct d as [|p]; [reflexivity|].
  do 4 (destruct p as [p|p|]; try reflexivity); lia.
Qed.

Lemma nibble_lt (n k : N) : N.land (N.shiftr n k) 15 < 16.
Proof.
  change 15 with (N.ones 4). rewrite N.land_ones.
  apply N.mod_lt. discriminate.
Qed.

Lemma nibbles_recompose (n : N) :
  n < 65536 ->
  ((N.land (N.shiftr n 12) 15 * 16 + N.land (N.shiftr n 8) 15) * 16
   + N.land (N.shiftr n 4) 15) * 16 + N.land n 15 = n.
Proof.
  intros Hn. change 15 with (N.ones 4). rewrite !N.land_ones, !N.shiftr_div_pow2.
  change (2 ^ 12) with 4096. change (2 ^ 8) with 256. change (2 ^ 4) with 16.
  zify. Z.to_euclidean_division_equations. lia.
Qed.

Lemma lor_disjoint (a b k : N) :
  b < 2 ^ k -> N.lor (N.shiftl a k) b = a * 2 ^ k + b.
Proof.
  intros Hb. rewrite <- N.shiftl_mul_pow2.
  rewrite <- N.lxor_lor, <- N.add_nocarry_lxor; try reflexivity.
  all: apply N.bits_inj; intros i; rewrite N.land_spec, N.bits_0.
  all: destruct (N.lt_ge_cases i k) as [Hlt|Hge].
  all: try (rewrite N.shiftl_spec_low by assumption; reflexivity).
  all: rewrite andb_comm.
  all: assert (E : N.testbit b i = false);
       [| rewrite E; reflexivity].
  all: destruct (N.eq_dec b 0) as [->|Hnz]; [apply N.bits_0|].
  all: apply N.bits_above_log2; apply N.log2_lt_pow2; [lia|].
  all: eapply N.lt_le_trans; [eassumption|]; apply N.pow_le_mono_r; lia.
Qed.

Lemma hex4_u_escape (n : N) :
  n < 65536 ->
  Json.hex4 (Json.hexdigit (N.land (N.shiftr n 12) 15))
            (Json.hexdigit (N.land (N.shiftr n 8) 15))
            (Json.hexdigit (N.land (N.shiftr n 4) 15))
            (Json.hexdigit (N.land n 15)) = Some n.
Proof.
  intros Hn. unfold Json.hex4.
  rewrite !hexval_hexdigit by apply nibble_lt.
  replace (N.land n 15) with (N.land (N.shiftr n 0) 15) by (now rewrite N.shiftr_0_r).
  rewrite hexval_hexdigit by apply nibble_lt. rewrite N.shiftr_0_r.
  rewrite nibbles_recompose by assumption. reflexivity.
Qed.

(** The decoder on one [\uXXXX] escape that is not a high surrogate. *)
Lemma scanstring_u_escape (n : N) (rest acc : str) :
  n < 65536 ->
  Json.is_high_surrogate n = false ->
  Json.scanstring (Json.u_escape n ++ rest) acc = Json.scanstring rest (n :: acc).
Proof.
  intros Hn Hhi. unfold Json.u_escape. cbn [app].
  change (Json.scanstring (Json.bs :: Json.ch "u" :: ?a :: ?b :: ?c :: ?d :: rest) acc)
    with (match Json.hex4 a b c d with
          | None => None
          | Some uni =>
              if Json.is_high_surrogate uni then
                match rest with
                | b0 :: e2 :: g1 :: g2 :: g3 :: g4 :: r3 =>
                    if (b0 =? Json.bs) && (e2 =? Json.ch "u") then
                      match Json.hex4 g1 g2 g3 g4 with
                      | None => None
                      | Some uni2 =>
                          if Json.is_low_surrogate uni2
                          then Json.scanstring r3 (Json.join_surrogates uni uni2 :: acc)
                          else Json.scanstring rest (uni :: acc)
                      end
                    else Json.scanstring rest (uni :: acc)
                | _ => Json.scanstring rest (uni :: acc)
                end
              else Json.scanstring rest (uni :: acc)
          end).
  rewrite hex4_u_escape by assumption. rewrite Hhi. reflexivity.
Qed.

(** The two halves of a code point beyond the basic plane. *)
Lemma surrogate_halves (c : N) :
  65536 <= c < 1114112 ->
  let n := c - 65536 in
  N.lor 55296 (N.land (N.shiftr n 10) 1023) = 55296 + n / 1024
  /\ N.lor 56320 (N.land n 1023) = 56320 + n mod 1024.
Proof.
  intros Hc n.
  assert (Hn : n < 1048576) by (subst n; lia).
  change 1023 with (N.ones 10). rewrite !N.land_ones, N.shiftr_div_pow2.
  change (2 ^ 10) with 1024.
  assert (Hq : n / 1024 < 1024) by (apply N.Div0.div_lt_upper_bound; lia).
  rewrite (N.mod_small (n / 1024)) by assumption.
  assert (Hr : n mod 1024 < 1024) by (apply N.mod_lt; discriminate).
  split.
  - rewrite N.lor_comm. change 55296 with (N.shiftl 54 10) at 1.
    rewrite N.lor_comm, lor_disjoint by (change (2 ^ 10) with 1024; assumption).
    reflexivity.
  - rewrite N.lor_comm. change 56320 with (N.shiftl 55 10) at 1.
    rewrite N.lor_comm, lor_disjoint by (change (2 ^ 10) with 1024; assumption).
    reflexivity.
Qed.

Lemma join_surrogate_halves (c : N) :
  65536 <= c < 1114112 ->
  let n := c - 65536 in
  Json.join_surrogates (55296 + n / 1024) (56320 + n mod 1024) = c.
Proof.
  intros Hc n. unfold Json.join_surrogates.
  rewrite (N.add_comm 55296), (N.add_comm 56320), !N.add_sub.
  rewrite lor_disjoint
    by (change (2 ^ 10) with 1024; apply N.mod_lt; discriminate).
  change (2 ^ 10) with 1024.
  pose proof (N.div_mod n 1024 ltac:(discriminate)) as Hdm.
  assert (Hcn : c = 65536 + n) by (subst n; lia).
  clearbody n. set (q := n / 1024) in *. set (r := n mod 1024) in *.
  clearbody q r. lia.
Qed.

(** *** Decoding what was encoded *)

Lemma scanstring_plain (c : N) (rest acc : str) :
  c <> Json.dq -> c <> Json.bs -> 32 <= c ->
  Json.scanstring (c :: rest) acc = Json.scanstring rest (c :: acc).
Proof.
  intros Hq Hb Hc. cbn [Json.scanstring].
  rewrite (proj2 (N.eqb_neq _ _) Hq), (proj2 (N.eqb_neq _ _) Hb).
  rewrite (proj2 (N.ltb_ge _ _) Hc). reflexivity.
Qed.

Lemma scanstring_escape_char (c : N) (rest acc : str) :
  code_point c ->
  Json.is_high_surrogate c = false ->
  Json.scanstring (Json.escape_char c ++ rest) acc = Json.scanstring rest (c :: acc).
Proof.
  intros Hmax Hnothigh. unfold code_point in Hmax. unfold Json.escape_char.
  destruct (N.eqb_spec c Json.dq) as [->|Hq]; [reflexivity|].
  destruct (N.eqb_spec c Json.bs) as [->|Hb]; [reflexivity|].
  destruct (N.eqb_spec c 10) as [->|H10]; [reflexivity|].
  destruct (N.eqb_spec c 13) as [->|H13]; [reflexivity|].
  destruct (N.eqb_spec c 9) as [->|H9]; [reflexivity|].
  destruct (N.eqb_spec c 12) as [->|H12]; [reflexivity|].
  destruct (N.eqb_spec c 8) as [->|H8]; [reflexivity|].
  destruct ((32 <=? c) && (c <=? 126)) eqn:Hprint.
  { apply andb_true_iff in Hprint. destruct Hprint as [Hlo _].
    apply N.leb_le in Hlo. cbn [app]. now apply scanstring_plain. }
  destruct (N.ltb_spec c 65536) as [Hbmp|Hsup].
  - apply scanstring_u_escape; assumption.
  - cbv zeta.
    destruct (surrogate_halves c (conj Hsup Hmax)) as [Ehi Elo].
    cbv zeta in Ehi, Elo. rewrite Ehi, Elo. clear Ehi Elo.
    pose proof (join_surrogate_halves c (conj Hsup Hmax)) as Ejoin.
    cbv zeta in Ejoin.
    assert (Hq' : (c - 65536) / 1024 < 1024)
      by (apply N.Div0.div_lt_upper_bound; lia).
    assert (Hr : (c - 65536) mod 1024 < 1024) by (apply N.mod_lt; discriminate).
    set (q := (c - 65536) / 1024) in *. set (r := (c - 65536) mod 1024) in *.
    clearbody q r.
    assert (Hhi : Json.is_high_surrogate (55296 + q) = true).
    { unfold Json.is_high_surrogate. apply andb_true_iff.
      split; apply N.leb_le; lia. }
    assert (Hlo : Json.is_low_surrogate (56320 + r) = true).
    { unfold Json.is_low_surrogate. apply andb_true_iff.
      split; apply N.leb_le; lia. }
    rewrite <- app_assoc. unfold Json.u_escape. cbn [app].
    change (Json.scanstring
              (Json.bs :: Json.ch "u" :: ?a :: ?b :: ?c0 :: ?d ::
               Json.bs :: Json.ch "u" :: ?g1 :: ?g2 :: ?g3 :: ?g4 :: rest) acc)
      with (match Json.hex4 a b c0 d with
            | None => None
            | Some uni =>
                if Json.is_high_surrogate uni then
                  match Json.hex4 g1 g2 g3 g4 with
                  | None => None
                  | Some uni2 =>
                      if Json.is_low_surrogate uni2
                      then Json.scanstring rest (Json.join_surrogates uni uni2 :: acc)
                      else Json.scanstring
                             (Json.bs :: Json.ch "u" :: g1 :: g2 :: g3 :: g4 :: rest)
                             (uni :: acc)
                  end
                else Json.scanstring
                       (Json.bs :: Json.ch "u" :: g1 :: g2 :: g3 :: g4 :: rest)
                       (uni :: acc)
            end).
    rewrite !hex4_u_escape by lia.
    rewrite Hhi, Hlo, Ejoin. reflexivity.
Qed.

(** A high surrogate is written as one escape ... *)
Lemma escape_char_high_surrogate (c : N) :
  Json.is_high_surrogate c = true -> Json.escape_char c = Json.u_escape c /\ c < 65536.
Proof.
  unfold Json.is_high_surrogate. rewrite andb_true_iff, !N.leb_le. intros [Hlo Hhi].
  unfold Json.escape_char.
  destruct (N.eqb_spec c Json.dq) as [->|_]; [unfold Json.dq in Hlo; lia|].
  destruct (N.eqb_spec c Json.bs) as [->|_]; [unfold Json.bs in Hlo; lia|].
  destruct (N.eqb_spec c 10) as [->|_]; [lia|].
  destruct (N.eqb_spec c 13) as [->|_]; [lia|].
  destruct (N.eqb_spec c 9) as [->|_]; [lia|].
  destruct (N.eqb_spec c 12) as [->|_]; [lia|].
  destruct (N.eqb_spec c 8) as [->|_]; [lia|].
  destruct (N.leb_spec c 126) as [Hp|_]; [lia|]. rewrite andb_false_r.
  destruct (N.ltb_spec c 65536) as [Hbmp|Hsup]; [|lia].
  split; [reflexivity | assumption].
Qed.

(** ... after which the decoder looks ahead for a low surrogate escape. *)
Lemma scanstring_high_surrogate (c : N) (rest acc : str) :
  Json.is_high_surrogate c = true ->
  not_low_escape rest ->
  Json.scanstring (Json.escape_char c ++ rest) acc = Json.scanstring rest (c :: acc).
Proof.
  intros Hhi Hrest. destruct (escape_char_high_surrogate c Hhi) as [-> Hbmp].
  unfold Json.u_escape. cbn [app].
  change (Json.scanstring (Json.bs :: Json.ch "u" :: ?a :: ?b :: ?c0 :: ?d :: rest) acc)
    with (match Json.hex4 a b c0 d with
          | None => None
          | Some uni =>
              if Json.is_high_surrogate uni then
                match rest with
                | b0 :: e2 :: g1 :: g2 :: g3 :: g4 :: r3 =>
                    if (b0 =? Json.bs) && (e2 =? Json.ch "u") then
                      match Json.hex4 g1 g2 g3 g4 with
                      | None => None
                      | Some uni2 =>
                          if Json.is_low_surrogate uni2
                          then Json.scanstring r3 (Json.join_surrogates uni uni2 :: acc)
                          else Json.scanstring rest (uni :: acc)
                      end
                    else Json.scanstring rest (uni :: acc)
                | _ => Json.scanstring rest (uni :: acc)
                end
              else Json.scanstring rest (uni :: acc)
          end).
  rewrite hex4_u_escape by assumption. rewrite Hhi.
  destruct rest as [|b0 [|e2 [|g1 [|g2 [|g3 [|g4 r3]]]]]]; try reflexivity.
  cbn [not_low_escape] in Hrest.
  destruct ((b0 =? Json.bs) && (e2 =? Json.ch "u")); [|reflexivity].
  destruct (Hrest eq_refl) as (d & -> & ->). reflexivity.
Qed.

(** What follows a high surrogate in an encoded string is not read as its
    low half: the closing quote, or the encoding of a code point that is
    not a low surrogate. *)
Lemma not_low_escape_quote (rest : str) : not_low_escape (Json.dq :: rest).
Proof.
  destruct rest as [|e2 [|g1 [|g2 [|g3 [|g4 r3]]]]]; cbn [not_low_escape]; auto.
  cbn. discriminate.
Qed.

Lemma not_low_escape_char (d : N) (tail : str) :
  code_point d ->
  Json.is_low_surrogate d = false ->
  not_low_escape (Json.escape_char d ++ tail).
Proof.
  intros Hmax Hlow. unfold code_point in Hmax.
  assert (Hshort : forall x, N.eqb x (Json.ch "u") = false ->
                             not_low_escape ([Json.bs; x] ++ tail)).
  { intros x Hx. cbn [app].
    destruct tail as [|g1 [|g2 [|g3 [|g4 r3]]]]; cbn [not_low_escape]; auto.
    rewrite Hx, andb_false_r. discriminate. }
  unfold Json.escape_char.
  destruct (N.eqb_spec d Json.dq) as [->|Hq]; [apply Hshort; reflexivity|].
  destruct (N.eqb_spec d Json.bs) as [->|Hb]; [apply Hshort; reflexivity|].
  destruct (N.eqb_spec d 10) as [->|_]; [apply Hshort; reflexivity|].
  destruct (N.eqb_spec d 13) as [->|_]; [apply Hshort; reflexivity|].
  destruct (N.eqb_spec d 9) as [->|_]; [apply Hshort; reflexivity|].
  destruct (N.eqb_spec d 12) as [->|_]; [apply Hshort; reflexivity|].
  destruct (N.eqb_spec d 8) as [->|_]; [apply Hshort; reflexivity|].
  destruct ((32 <=? d) && (d <=? 126)).
  { cbn [app].
    destruct tail as [|e2 [|g1 [|g2 [|g3 [|g4 r3]]]]]; cbn [not_low_escape]; auto.
    rewrite (proj2 (N.eqb_neq _ _) Hb). discriminate. }
  destruct (N.ltb_spec d 65536) as [Hbmp|Hsup].
  - unfold Json.u_escape. cbn [app not_low_escape]. intros _.
    exists d. split; [apply hex4_u_escape; assumption | assumption].
  - cbv zeta.
    destruct (surrogate_halves d (conj Hsup Hmax)) as [Ehi _].
    cbv zeta in Ehi. rewrite Ehi.
    assert (Hq' : (d - 65536) / 1024 < 1024)
      by (apply N.Div0.div_lt_upper_bound; lia).
    set (q := (d - 65536) / 1024) in *. clearbody q.
    rewrite <- app_assoc. unfold Json.u_escape at 1. cbn [app not_low_escape].
    intros _. exists (55296 + q). split; [apply hex4_u_escape; lia|].
    unfold Json.is_low_surrogate. apply andb_false_iff. left. apply N.leb_gt. lia.
Qed.

Lemma scanstring_escaped (s rest acc : str) :
  well_paired s ->
  Json.scanstring (flat_map Json.escape_char s ++ Json.dq :: rest) acc
  = Some (rev acc ++ s, rest).
Proof.
  intros [Hcp Hpair]. revert acc Hpair.
  induction Hcp as [|c s Hc Hs IH]; intros acc Hpair.
  - cbn [flat_map app]. cbn [Json.scanstring]. rewrite N.eqb_refl.
    rewrite app_nil_r. reflexivity.
  - cbn [flat_map]. rewrite <- app_assoc.
    destruct Hpair as [Hnext Hpair].
    assert (Estep : Json.scanstring
                      (Json.escape_char c ++ flat_map Json.escape_char s ++ Json.dq :: rest)
                      acc
                    = Json.scanstring (flat_map Json.escape_char s ++ Json.dq :: rest)
                                      (c :: acc)).
    { destruct (Json.is_high_surrogate c) eqn:Hhi.
      - apply scanstring_high_surrogate; [assumption|].
        destruct s as [|d s'].
        + cbn [flat_map app]. apply not_low_escape_quote.
        + cbn [flat_map]. rewrite <- app_assoc.
          apply not_low_escape_char; [now inversion Hs|].
          destruct (Json.is_low_surrogate d); [exfalso; auto | reflexivity].
      - apply scanstring_escape_char; assumption. }
    rewrite Estep, IH by assumption. cbn [rev]. rewrite <- app_assoc. reflexivity.
Qed.

(** Unicode text is well paired. *)
Lemma unicode_text_well_paired (s : str) : unicode_text s -> well_paired s.
Proof.
  induction 1 as [|c s [Hsur Hmax] Hs [IHc IHp]]; [split; [constructor | exact I]|].
  split; [constructor; assumption|]. split; [|assumption].
  destruct s; [exact I|]. intros [Hhi _].
  unfold Json.is_high_surrogate in Hhi. apply andb_true_iff in Hhi.
  rewrite !N.leb_le in Hhi. lia.
Qed.

(** The scanner reads an encoded string back. *)
Lemma scan_once_encoded (fuel : nat) (s rest : str) :
  well_paired s ->
  Json.scan_once (S fuel) (Json.encode_basestring_ascii s ++ rest)
  = Json.Scanned (JStr s) rest.
Proof.
  intros Hs. unfold Json.encode_basestring_ascii.
  cbn [app Json.scan_once]. rewrite N.eqb_refl.
  rewrite <- app_assoc. cbn [app].
  rewrite scanstring_escaped by assumption. reflexivity.
Qed.

Lemma array_items_step (fuel : nat) (s rest : str) (acc : list json) :
  well_paired s ->
  fuel <> O ->
  Json.array_items (S fuel) (Json.encode_basestring_ascii s ++ rest) acc
  = match Json.skip_ws rest with
    | c :: r1 =>
        if c =? Json.ch "]" then Json.Scanned (JArr (rev (JStr s :: acc))) r1
        else if c =? Json.ch ","
             then Json.array_items fuel (Json.skip_ws r1) (JStr s :: acc)
             else Json.DecodeError
    | [] => Json.DecodeError
    end.
Proof.
  intros Hs Hf. cbn [Json.array_items].
  destruct fuel as [|fuel]; [congruence|].
  rewrite scan_once_encoded by assumption. reflexivity.
Qed.

Lemma array_items_next (fuel : nat) (s s' rest : str) (acc : list json) :
  well_paired s ->
  fuel <> O ->
  Json.array_items (S fuel)
    (Json.encode_basestring_ascii s ++ u ", " ++ Json.encode_basestring_ascii s' ++ rest)
    acc
  = Json.array_items fuel (Json.encode_basestring_ascii s' ++ rest) (JStr s :: acc).
Proof.
  intros Hs Hf. rewrite array_items_step by assumption. reflexivity.
Qed.

Lemma array_items_last (fuel : nat) (s : str) (acc : list json) :
  well_paired s ->
  fuel <> O ->
  Json.array_items (S fuel) (Json.encode_basestring_ascii s ++ [Json.ch "]"]) acc
  = Json.Scanned (JArr (rev (JStr s :: acc))) [].
Proof.
  intros Hs Hf. rewrite array_items_step by assumption. reflexivity.
Qed.

Lemma join_cons (sep p q : str) (rest : list str) :
  PyStr.join sep (p :: q :: rest) = p ++ sep ++ PyStr.join sep (q :: rest).
Proof. reflexivity. Qed.

Lemma join_encoded_head (s : str) (l : list str) :
  exists t,
    PyStr.join (u ", ") (map Json.encode_basestring_ascii (s :: l))
    = Json.encode_basestring_ascii s ++ t.
Proof.
  destruct l as [|s' l].
  - exists []. cbn [map PyStr.join]. now rewrite app_nil_r.
  - eexists. cbn [map]. rewrite join_cons. reflexivity.
Qed.

(** ... and a non-empty list of them, separated by [", "]. *)
Lemma array_items_encoded (l : list str) :
  Forall well_paired l ->
  l <> [] ->
  forall (fuel : nat) (acc : list json),
    (length l < fuel)%nat ->
    Json.array_items fuel
      (PyStr.join (u ", ") (map Json.encode_basestring_ascii l) ++ [Json.ch "]"]) acc
    = Json.Scanned (JArr (rev acc ++ map JStr l)) [].
Proof.
  induction 1 as [|s l Hs Hl IH]; intros Hne fuel acc Hfuel; [congruence|].
  destruct fuel as [|fuel]; [cbn in Hfuel; lia|].
  assert (Hf : fuel <> O) by (cbn in Hfuel; lia).
  destruct l as [|s' l].
  - cbn [map PyStr.join].
    rewrite array_items_last by assumption.
    cbn [rev map]. reflexivity.
  - cbn [map]. rewrite join_cons.
    destruct (join_encoded_head s' l) as [t Et]. cbn [map] in Et.
    specialize (IH ltac:(discriminate) fuel (JStr s :: acc)).
    cbn [map] in IH. rewrite Et in IH |- *.
    rewrite <- !app_assoc in IH. rewrite <- !app_assoc.
    rewrite array_items_next by assumption.
    rewrite IH by (cbn in *; lia).
    cbn [rev]. rewrite <- app_assoc. reflexivity.
Qed.

Lemma join_encoded_length (l : list str) :
  (length l <= length (PyStr.join (u ", ") (map Json.encode_basestring_ascii l)))%nat.
Proof.
  induction l as [|s l IH]; [cbn; lia|].
  destruct l as [|s' l].
  - cbn [map PyStr.join]. unfold Json.encode_basestring_ascii. cbn [length]. lia.
  - cbn [map] in *. rewrite join_cons, !length_app.
    unfold Json.encode_basestring_ascii at 1. cbn [length] in *. lia.
Qed.

(** [json.loads(json.dumps(l)) == l] for a non-empty list of strings. *)
Lemma loads_dumps_strs (l : list str) :
  Forall well_paired l ->
  l <> [] ->
  Json.loads (Json.dumps_strs l) = Some (JArr (map JStr l)).
Proof.
  intros Hl Hne. unfold Json.loads, Json.dumps_strs.
  set (text := PyStr.join (u ", ") (map Json.encode_basestring_ascii l) ++ [Json.ch "]"]).
  assert (Hfuel : (length l < length text)%nat).
  { subst text. rewrite length_app. cbn [length].
    pose proof (join_encoded_length l). lia. }
  assert (Hhead : exists t, text = Json.dq :: t).
  { subst text. destruct l as [|s l]; [congruence|].
    destruct (join_encoded_head s l) as [t ->].
    unfold Json.encode_basestring_ascii. cbn [app]. eauto. }
  destruct Hhead as [t Ht].
  change (Json.skip_ws (Json.ch "[" :: text)) with (Json.ch "[" :: text).
  unfold Json.loads_fuel. cbn [length].
  replace (2 * S (length text) + 2)%nat with (S (S (S (S (length text + length text)))))
    by lia.
  cbn [Json.scan_once].
  change (Json.ch "[" =? Json.dq) with false.
  change (Json.ch "[" =? Json.ch "{") with false.
  change (Json.ch "[" =? Json.ch "[") with true. cbv iota.
  rewrite Ht. change (Json.skip_ws (Json.dq :: t)) with (Json.dq :: t). cbv iota.
  change (Json.dq =? Json.ch "]") with false. cbv iota.
  rewrite <- Ht. subst text.
  rewrite array_items_encoded by (assumption || lia).
  reflexivity.
Qed.

End Codec.

(** ** [set_tags_list] and [get_tags_list] *)

Section Tags.

Context `{Env}.



(** The comma-separated fallback keeps no empty segment. *)
Lemma comma_separated_nonempty (s t : str) : In t (comma_separated s) -> t <> [].
Proof.
  unfold comma_separated. rewrite filter_In. intros [_ Ht] ->. discriminate.
Qed.

(** A stored text that is not valid JSON is read by the fallback. *)
Lemma get_tags_list_fallback (s : str) :
  s <> [] ->
  Json.loads s = None ->
  get_tags_list (JStr s) = JArr (map JStr (comma_separated s)).
Proof.
  intros Hs Hno. unfold get_tags_list. destruct s as [|c s]; [congruence|].
  cbn [truthy negb json_loads]. rewrite Hno. reflexivity.
Qed.

(** The example of the specification: a comma-separated stored value. *)
Lemma get_tags_list_comma_separated :
  get_tags_list (JStr (u "a, b ,c")) = JArr [JStr (u "a"); JStr (u "b"); JStr (u "c")].
Proof. reflexivity. Qed.

(** C6: the stored text [2024] is valid JSON, so the fallback is not taken
    and [get_tags_list] returns the integer 2024, which is not a list of
    strings; [to_dict] passes it on as the tags of the note. *)
Theorem get_tags_list_of_a_number :
  get_tags_list (JStr (u "2024")) = JInt 2024
  /\ Json.dict_lookup (u "tags")
       match to_dict (with_tags (JStr (u "2024")) sample_note) with
       | JObj members => members
       | _ => []
       end = Some (JInt 2024).
Proof. split; reflexivity. Qed.

End Tags.

(** ** The table stays well formed *)

Section Invariant.

Context `{Env}.




(** Both writing handlers catch every exception: they always answer. *)
Lemma create_note_answers (data : json) (w : world) :
  exists r w', create_note data w = (Val r, w').
Proof. unfold create_note. run. split_matches; eauto. Qed.

Lemma update_note_answers (i : Z) (data : json) (w : world) :
  exists r w', update_note i data w = (Val r, w').
Proof. unfold update_note. run. split_matches; eauto. Qed.

(** [get_or_404] sits inside the [try] of [update_note]: for an id that is
    not in the table the 404 it raises is caught like any exception, and
    the answer is 500. *)
Lemma update_note_missing_id (i : Z) (data : json) (w : world) :
  notes w !! i = None ->
  update_note i data w =
    (Val (jsonify (error_body (exn_str NotFound)) 500),
     mkWorld (notes w) (clock w) (trace w ++ [SqlGet i])).
Proof.
  intros Hn. unfold update_note. run. rewrite Hn. reflexivity.
Qed.

End Invariant.

(** * The handlers on concrete requests *)

(** The example of the specification: the stub answers a structured note. *)
Lemma generate_note_meeting_with_bob :
  @generate_note (stub_env (Val meeting_answer))
                 (JObj [(u "input", JStr meeting_input)]) empty_world
  = (Val (jsonify (JObj [ (u "title", JStr (u "Meeting with Bob"));
                          (u "content", JStr (u "..."));
                          (u "tags", JArr [JStr (u "work")]);
                          (u "original_input", JStr meeting_input) ]) 200),
     after_completion empty_world (u "English") meeting_input)
  /\ notes (after_completion empty_world (u "English") meeting_input)
     = notes empty_world.
Proof.
  apply (@generate_note_returns_the_parsed_note (stub_env (Val meeting_answer))
           [(u "input", JStr meeting_input)] meeting_input (u "English")
           empty_world meeting_answer
           [ (u "Title", JStr (u "Meeting with Bob"));
             (u "Notes", JStr (u "..."));
             (u "Tags", JArr [JStr (u "work")]) ]
           (JStr (u "Meeting with Bob")) (JStr (u "..."))).
  - repeat split; try reflexivity.
    + vm_compute. discriminate.
    + vm_compute. auto.
  - reflexivity.
  - vm_compute. reflexivity.
  - reflexivity.
  - reflexivity.
Defined.

(** The input of [generate_note] is trimmed before anything else: a blank
    input is refused although it is not the empty string, and what comes
    back as [original_input] is the trimmed text, not the text sent. *)
Lemma generate_note_trims_the_input :
  (u " buy milk" <> []
   /\ Json.loads shopping_answer
      = Some (JObj [(u "Title", JStr (u "Shopping")); (u "Notes", JStr (u "Buy milk"))])
   /\ @generate_note (stub_env (Val shopping_answer))
                     (JObj [(u "input", JStr (u " buy milk"))]) empty_world
      = (Val (jsonify (JObj [ (u "title", JStr (u "Shopping"));
                              (u "content", JStr (u "Buy milk"));
                              (u "tags", JArr []);
                              (u "original_input", JStr (u "buy milk")) ]) 200),
         after_completion empty_world (u "English") (u " buy milk"))
   /\ u "buy milk" <> u " buy milk")
  /\ (u " " <> []
      /\ @generate_note (stub_env (Val shopping_answer))
                        (JObj [(u "input", JStr (u " "))]) empty_world
         = (Val (jsonify (error_body (u "Input text is required")) 400), empty_world)).
Proof.
  split; [split; [|split; [|split]] | split].
  - discriminate.
  - vm_compute. reflexivity.
  - vm_compute. reflexivity.
  - vm_compute. discriminate.
  - discriminate.
  - vm_compute. reflexivity.
Qed.



(** An answer made of a complete object followed by more braces: the first
    balanced object parses and has both fields, yet the handler answers
    500, because the text it parses runs to the last closing brace. *)
Lemma generate_note_reads_to_the_last_brace :
  Json.loads trailing_answer = None
  /\ SpecText.first_balanced_object trailing_answer
     = Some (js "{'Title':'a','Notes':'b'}")
  /\ SpecText.parse_response trailing_answer
     = Some (JObj [(u "Title", JStr (u "a")); (u "Notes", JStr (u "b"))])
  /\ structured_note (JObj [(u "Title", JStr (u "a")); (u "Notes", JStr (u "b"))]) = true
  /\ re_search_braces trailing_answer = Some trailing_answer
  /\ exists r w',
       @generate_note (stub_env (Val trailing_answer))
                      (JObj [(u "input", JStr (u "x"))]) empty_world = (Val r, w')
       /\ status r = 500%Z.
Proof.
  repeat (split; [vm_compute; reflexivity|]).
  eexists _, _. split; vm_compute; reflexivity.
Qed.

Lemma generate_note_parsing_protocol_witness :
  exists r,
    @generate_note (stub_env (Val wrapped_answer))
                   (JObj [(u "input", JStr (u "x"))]) empty_world
    = (Val r, after_completion empty_world (u "English") (u "x"))
    /\ status r = 200%Z.
Proof.
  destruct (@generate_note_parsing_protocol (stub_env (Val wrapped_answer))
              [(u "input", JStr (u "x"))] (u "x") (u "English") empty_world
              wrapped_answer)
    as (_ & _ & _ & r & Hrun & _ & H200).
  - repeat split; try reflexivity.
    + vm_compute. discriminate.
    + vm_compute. auto.
  - reflexivity.
  - exists r. split; [exact Hrun|].
    apply H200. eexists. split; vm_compute; reflexivity.
Defined.



Lemma update_note_stores_empty_strings_witness :
  exists r w' n',
    @update_note (stub_env (Val [])) 1 (JObj [(u "title", JStr [])]) sample_world
    = (Val r, w')
    /\ status r = 200%Z /\ notes w' !! 1%Z = Some n' /\ title n' = JStr [].
Proof.
  exact (proj1 (@update_note_stores_empty_strings (stub_env (Val []))
                  sample_world sample_note eq_refl eq_refl)).
Defined.


Lemma translate_note_french_witness :
  @translate_note (stub_env (Val (u "Bonjour"))) 1
                  (JObj [(u "language", JStr (u "French"))]) sample_world
  = (Val (jsonify (error_body unsupported_language) 400),
     mkWorld (notes sample_world) (clock sample_world)
             (trace sample_world ++ [SqlGet 1])).
Proof.
  apply (@translate_note_rejects_other_languages (stub_env (Val (u "Bonjour")))
           sample_world 1 sample_note [(u "language", JStr (u "French"))] (u "French")).
  - reflexivity.
  - reflexivity.
  - vm_compute. intros [E | [E | [E | []]]]; discriminate.
Defined.


(** A string that is not well paired: the surrogate pair it holds as two
    code points is written as two escapes, which are read back as one code
    point. *)
Lemma surrogate_pair_is_joined :
  Json.loads (Json.dumps_strs [[55357; 56832]%N]) = Some (JArr [JStr [128512%N]]).
Proof. vm_compute. reflexivity. Qed.

Lemma search_notes_empty_query_witness :
  @search_notes (stub_env (Val [])) [] sample_world
  = (Val (jsonify (JArr []) 200), sample_world).
Proof.
  exact (proj1 (@search_notes_empty_query (stub_env (Val [])) sample_world)).
Defined.

(** * More of the handlers *)

(** Runs the plumbing of the other handlers as well. *)
Ltac run_all :=
  cbv beta iota zeta delta
    [bind ret raise lift try_except log get_or_404 utcnow store_row
     commit_new commit_changes commit_delete rollback call_llm_model translate
     process_user_notes];
  cbn [notes clock trace fst snd].

(** ** Reading and deleting *)

Section ReadDelete.

Context `{Env}.

Lemma get_note_found (w : world) (i : Z) (n : Note) :
  notes w !! i = Some n ->
  get_note i w
  = (Val (jsonify (to_dict n) 200), mkWorld (notes w) (clock w) (trace w ++ [SqlGet i])).
Proof. intros Hn. unfold get_note. run_all. rewrite Hn. reflexivity. Qed.

Lemma get_note_missing (w : world) (i : Z) :
  notes w !! i = None ->
  serve (get_note i) w
  = (mkResponse ErrorPage 404, mkWorld (notes w) (clock w) (trace w ++ [SqlGet i])).
Proof. intros Hn. unfold serve, get_note. run_all. rewrite Hn. reflexivity. Qed.

Lemma delete_note_found (w : world) (n : Note) :
  notes w !! id n = Some n ->
  delete_note (id n) w
  = (Val (mkResponse EmptyBody 204),
     mkWorld (delete (id n) (notes w)) (clock w) (trace w ++ [SqlGet (id n)])).
Proof. intros Hn. unfold delete_note. run_all. rewrite Hn. reflexivity. Qed.

Lemma delete_note_missing (w : world) (i : Z) :
  notes w !! i = None ->
  delete_note i w
  = (Val (jsonify (error_body (exn_str NotFound)) 500),
     mkWorld (notes w) (clock w) (trace w ++ [SqlGet i])).
Proof. intros Hn. unfold delete_note. run_all. rewrite Hn. reflexivity. Qed.

(** X1: Deleting a stored note is answered 204 with an empty body; its row is
    gone and every other row is as it was. *)
Theorem delete_note_removes_only_that_row (w : world) (n : Note) :
  notes w !! id n = Some n ->
  exists w',
    delete_note (id n) w = (Val (mkResponse EmptyBody 204), w')
    /\ notes w' !! id n = None
    /\ (forall j, j <> id n -> notes w' !! j = notes w !! j)
    /\ clock w' = clock w.
Proof.
  intros Hn. rewrite (delete_note_found w n Hn). eexists. split; [reflexivity|].
  cbn [notes clock]. split; [apply lookup_delete_eq|]. split; [|reflexivity].
  intros j Hj. apply lookup_delete_ne. congruence.
Qed.


(** X3: After a note was deleted, reading it is answered 404 and deleting it
    again 500. *)
Theorem delete_note_then_read_or_delete (w : world) (n : Note) :
  notes w !! id n = Some n ->
  exists w',
    delete_note (id n) w = (Val (mkResponse EmptyBody 204), w')
    /\ fst (serve (get_note (id n)) w') = mkResponse ErrorPage 404
    /\ fst (delete_note (id n) w')
       = Val (jsonify (error_body (exn_str NotFound)) 500)
    /\ notes (snd (delete_note (id n) w')) = notes w'.
Proof.
  intros Hn. rewrite (delete_note_found w n Hn). eexists. split; [reflexivity|].
  match goal with |- context [serve _ ?w0] => set (w' := w0) end.
  assert (Hgone : notes w' !! id n = None) by apply lookup_delete_eq.
  rewrite (get_note_missing w' _ Hgone), (delete_note_missing w' _ Hgone).
  auto.
Qed.

End ReadDelete.

(** ** More on creating *)

Section CreateMore.

Context `{Env}.

Lemma create_note_unfold
    (members : list (str * json)) (t c : json) (w : world) :
  Json.dict_lookup (u "title") members = Some t ->
  Json.dict_lookup (u "content") members = Some c ->
  create_note (JObj members) w = create_outcome members t c w.
Proof.
  intros Ht Hc. destruct members as [|m members]; [discriminate|].
  unfold create_note, create_outcome, created_tags, assigned, inserted_row,
    after_insert. run_all.
  cbn [truthy negb py_in py_getitem py_get]. rewrite Ht, Hc. cbn [negb].
  destruct (Json.dict_lookup (u "tags") (m :: members)) as [tv|];
    [destruct tv; try destruct (set_tags_list _) as [tg|e]|];
    try reflexivity;
    unfold row_ok; cbn [title content tags event_date event_time];
    destruct (is_string t && is_string c && _ && _ && _); reflexivity.
Qed.

(** What [create_note] does on any payload: either it answers 201 with the
    representation of a row it stored under an unused key, stamped by two
    readings of the clock, or it answers 400 or 500 and the world is what
    it was. *)
Lemma create_note_cases (data : json) (w : world) :
  (exists row,
      create_note data w = (Val (jsonify (to_dict row) 201), after_insert w row)
      /\ id row = fresh_id (notes w)
      /\ row_ok row = true
      /\ created_at row = Some (clock w)
      /\ updated_at row = Some (elapse (clock w)))
  \/ (exists r,
        create_note data w = (Val r, w) /\ (status r = 400%Z \/ status r = 500%Z)).
Proof.
  unfold create_note, after_insert. run_all.
  split_matches;
    first [ right; eexists; split; [reflexivity|]; cbn; auto; fail
          | left; eexists; split; [reflexivity|]; cbn; auto ].
Qed.

(** X4: A create request is answered 201, 400 or 500, never with an error
    page.  Only a 201 changes the world: it adds one row, under a key that
    was not in use, and leaves every other row as it was. *)
Theorem create_note_stores_only_on_201 (data : json) (w : world) :
  exists r w',
    create_note data w = (Val r, w')
    /\ (status r = 201%Z \/ status r = 400%Z \/ status r = 500%Z)
    /\ (status r <> 201%Z -> w' = w)
    /\ (status r = 201%Z ->
        notes w !! fresh_id (notes w) = None
        /\ (exists row, notes w' !! fresh_id (notes w) = Some row
                        /\ payload r = JsonBody (to_dict row)
                        /\ id row = fresh_id (notes w))
        /\ (forall j, j <> fresh_id (notes w) -> notes w' !! j = notes w !! j)).
Proof.
  destruct (create_note_cases data w)
    as [(row & Hrun & Hid & Hok & _) | (r & Hrun & Hst)].
  - eexists _, _. split; [exact Hrun|]. cbn [status jsonify payload].
    split; [auto|]. split; [congruence|]. intros _.
    split; [apply fresh_id_unused|]. cbn [after_insert notes]. split.
    + exists row. rewrite lookup_insert_eq. auto.
    + intros j Hj. apply lookup_insert_ne. congruence.
  - exists r, w. split; [exact Hrun|]. split; [tauto|]. split; [reflexivity|].
    intros E. destruct Hst as [Hst|Hst]; rewrite Hst in E; discriminate.
Qed.

(** X5: Reading back what was just created gives the representation the create
    request was answered with, and deleting it gives back the table as it
    was before. *)
Theorem create_note_then_read_or_delete (data : json) (w w' : world) (r : response) :
  create_note data w = (Val r, w') ->
  status r = 201%Z ->
  fst (get_note (fresh_id (notes w)) w') = Val (mkResponse (payload r) 200)
  /\ fst (delete_note (fresh_id (notes w)) w') = Val (mkResponse EmptyBody 204)
  /\ notes (snd (delete_note (fresh_id (notes w)) w')) = notes w.
Proof.
  intros Hrun Hst. set (i := fresh_id (notes w)).
  destruct (create_note_cases data w)
    as [(row & Hrun' & Hid & Hok & _) | (r' & Hrun' & Hst')].
  2:{ rewrite Hrun in Hrun'. injection Hrun' as -> _.
      destruct Hst' as [E|E]; rewrite E in Hst; discriminate. }
  rewrite Hrun in Hrun'. injection Hrun' as -> ->.
  assert (Hrow : notes (after_insert w row) !! i = Some row)
    by (cbn [after_insert notes]; apply lookup_insert_eq).
  rewrite (get_note_found _ _ _ Hrow). cbn [fst jsonify payload].
  split; [reflexivity|].
  subst i. rewrite <- Hid in Hrow |- *.
  rewrite (delete_note_found _ _ Hrow). cbn [fst snd notes after_insert].
  split; [reflexivity|].
  rewrite Hid. rewrite delete_insert_id; [reflexivity | apply fresh_id_unused].
Qed.

(** X6: A [null] title or content passes the check for the keys and is refused
    by the column ([nullable=False]): the request is answered 500 and
    nothing is stored. *)
Theorem create_note_with_null_title_or_content
    (members : list (str * json)) (t c : json) (w : world) :
  Json.dict_lookup (u "title") members = Some t ->
  Json.dict_lookup (u "content") members = Some c ->
  t = JNull \/ c = JNull ->
  exists r, create_note (JObj members) w = (Val r, w) /\ status r = 500%Z.
Proof.
  intros Ht Hc Hnull. rewrite (create_note_unfold members t c w Ht Hc).
  unfold create_outcome. destruct (created_tags members) as [tg|e].
  2:{ eexists. split; reflexivity. }
  assert (Hbad : row_ok (inserted_row w t c tg
                           (assigned (u "event_date") members JNull)
                           (assigned (u "event_time") members JNull)) = false).
  { unfold row_ok. cbn [inserted_row title content].
    destruct Hnull as [-> | ->]; [reflexivity|].
    destruct (is_string t); reflexivity. }
  rewrite Hbad. eexists. split; reflexivity.
Qed.

(** X7: A payload that is not an object never creates a note: it is answered
    400 when it is falsy or fails the [in] tests, and 500 otherwise (a
    list or a string can pass the [in] tests; indexing it by a key then
    raises). *)
Theorem create_note_needs_an_object (data : json) (w : world) :
  (forall members, data <> JObj members) ->
  exists r,
    create_note data w = (Val r, w) /\ (status r = 400%Z \/ status r = 500%Z).
Proof.
  intros Hobj.
  destruct data as [| b | z | lx | s | items | members];
    try (unfold create_note; run_all; cbn [truthy negb py_in py_getitem py_get];
         split_matches; eexists; (split; [reflexivity|]); cbn; auto; fail).
  - unfold create_note. run_all. cbn [truthy negb py_in py_getitem py_get].
    destruct items as [|x items]; [eexists; split; [reflexivity|]; cbn; auto|].
    cbn [negb].
    destruct (existsb _ (x :: items)); cbn [negb];
      [destruct (existsb _ (x :: items)); cbn [negb]|];
      eexists; (split; [reflexivity|]); cbn; auto.
  - exfalso. apply (Hobj members). reflexivity.
Qed.

End CreateMore.

(** ** More on the tag codec *)

Section TagsMore.

Context `{Env}.

(** X8: [set_tags_list] stores the [str()] of each element of whatever iterable
    it is given (the characters of a string, the keys of a dict), and
    [get_tags_list] reads exactly that list back; an empty iterable is
    stored as [None] and read back as the empty list. *)
Theorem tags_are_stored_as_strings (v : json) (items : list json) :
  py_iter v = Val items ->
  Forall well_paired (map py_str items) ->
  exists stored,
    set_tags_list v = Val stored
    /\ string_or_none stored = true
    /\ get_tags_list stored = JArr (map JStr (map py_str items)).
Proof.
  intros Hiter Htext. unfold set_tags_list.
  destruct (truthy v) eqn:Hv; cbn [negb].
  - rewrite Hiter. eexists. split; [reflexivity|]. split; [reflexivity|].
    assert (Hne : map py_str items <> []).
    { destruct v; cbn in Hiter, Hv; try discriminate;
        injection Hiter as <-;
        match goal with
        | Hv : match ?l with [] => false | _ :: _ => true end = true |- _ =>
            destruct l; [discriminate | cbn; discriminate]
        end. }
    unfold get_tags_list.
    assert (Ht : truthy (JStr (Json.dumps_strs (map py_str items))) = true)
      by reflexivity.
    rewrite Ht. cbn [negb json_loads].
    rewrite loads_dumps_strs by assumption. reflexivity.
  - exists JNull. split; [reflexivity|]. split; [reflexivity|].
    assert (Hnil : items = []).
    { destruct v; cbn in Hiter, Hv; try discriminate;
        injection Hiter as <-;
        match goal with
        | Hv : match ?l with [] => false | _ :: _ => true end = false |- _ =>
            destruct l; [reflexivity | discriminate]
        end. }
    subst items. reflexivity.
Qed.

(** X9: Tags given as one string instead of a list are taken apart: every
    character becomes a tag. *)
Theorem tags_given_as_a_string (s : str) :
  Forall code_point s ->
  exists stored,
    set_tags_list (JStr s) = Val stored
    /\ get_tags_list stored = JArr (map (fun c => JStr [c]) s).
Proof.
  intros Hs.
  assert (Htext : Forall well_paired (map py_str (map (fun c => JStr [c]) s))).
  { rewrite map_map. cbn [py_str]. apply Forall_map.
    eapply Forall_impl; [exact Hs|]. intros c Hc. cbn.
    split; [constructor; [assumption | constructor] | cbn; auto]. }
  destruct s as [|c s]; [exists JNull; split; reflexivity|].
  unfold set_tags_list. cbn [truthy negb py_iter].
  eexists. split; [reflexivity|]. unfold get_tags_list.
  assert (Ht : truthy (JStr (Json.dumps_strs
                               (map py_str (map (fun c => JStr [c]) (c :: s))))) = true)
    by reflexivity.
  rewrite Ht. cbn [negb json_loads].
  rewrite loads_dumps_strs by (discriminate || assumption).
  rewrite !map_map. reflexivity.
Qed.

(** Tags that are truthy but cannot be iterated (a number, [true]) make
    [set_tags_list] raise. *)
Lemma set_tags_list_not_iterable (v : json) :
  v = JBool true \/ (exists z, v = JInt z /\ z <> 0%Z) ->
  set_tags_list v = Raise TypeError.
Proof.
  intros [-> | (z & -> & Hz)]; unfold set_tags_list; cbn.
  - reflexivity.
  - destruct (Z.eqb_spec z 0); [contradiction | reflexivity].
Qed.

End TagsMore.

(** ** More on updating *)

Section UpdateMore.

Context `{Env}.

Lemma assigned_twice (k : str) (members : list (str * json)) (old : json) :
  assigned k members (assigned k members old) = assigned k members old.
Proof. unfold assigned. destruct (Json.dict_lookup k members); reflexivity. Qed.

Lemma unchanged_same_fields (new old : Note) :
  string_or_none (title old) = true -> string_or_none (content old) = true ->
  string_or_none (tags old) = true -> string_or_none (event_date old) = true ->
  string_or_none (event_time old) = true ->
  title new = title old -> content new = content old -> tags new = tags old ->
  event_date new = event_date old -> event_time new = event_time old ->
  unchanged new old = true.
Proof.
  intros Ht Hc Hg Hd Hm E1 E2 E3 E4 E5. unfold unchanged.
  rewrite E1, E2, E3, E4, E5.
  rewrite !same_value_refl by assumption. reflexivity.
Qed.

(** What an update that is answered 200 leaves behind: the answer is the
    representation of the row now stored under the id, a row that passes
    the column checks and that the same payload would not change. *)
Lemma update_note_answered_200
    (w w' : world) (n : Note) (members : list (str * json)) (r : response) :
  notes w !! id n = Some n ->
  update_note (id n) (JObj members) w = (Val r, w') ->
  status r = 200%Z ->
  exists n',
    r = jsonify (to_dict n') 200
    /\ notes w' !! id n = Some n'
    /\ id n' = id n
    /\ update_outcome n' members w'
       = (Val r, mkWorld (notes w') (clock w') (trace w' ++ [SqlGet (id n)])).
Proof.
  intros Hn Hrun Hst.
  assert (Hne : members <> []).
  { intros ->. rewrite (update_note_falsy w (id n) n (JObj []) Hn eq_refl) in Hrun.
    injection Hrun as <- _. discriminate. }
  rewrite update_note_unfold in Hrun by assumption.
  unfold update_outcome in Hrun.
  destruct (assigned_tags members (tags n)) as [tg|e] eqn:Htg.
  2:{ injection Hrun as <- <-. discriminate. }
  destruct (unchanged _ n) eqn:Hun.
  - injection Hrun as <- <-. exists n. cbn [notes clock trace].
    repeat (split; [reflexivity || assumption|]).
    unfold update_outcome. rewrite Htg, Hun. reflexivity.
  - destruct (row_ok _) eqn:Hok; [|injection Hrun as <- <-; discriminate].
    injection Hrun as <- <-.
    eexists. split; [reflexivity|]. cbn [notes clock trace].
    split; [apply lookup_insert_eq|]. split; [reflexivity|].
    unfold update_outcome.
    cbn [id title content tags event_date event_time created_at updated_at].
    assert (Htg' : assigned_tags members tg = Val tg).
    { unfold assigned_tags in Htg |- *.
      destruct (Json.dict_lookup (u "tags") members); [assumption | reflexivity]. }
    rewrite Htg'. rewrite !assigned_twice.
    apply row_ok_fields in Hok.
    cbn [title content tags event_date event_time] in Hok.
    destruct Hok as (Ht & Hc & Hg & Hd & Hm).
    rewrite unchanged_same_fields;
      cbn [title content tags event_date event_time];
      auto using is_string_or_none.
Qed.


(** X11: Reading a note after an update that was answered 200 gives the
    representation the update was answered with. *)
Theorem update_note_then_read
    (w w' : world) (n : Note) (members : list (str * json)) (r : response) :
  notes w !! id n = Some n ->
  update_note (id n) (JObj members) w = (Val r, w') ->
  status r = 200%Z ->
  fst (get_note (id n) w') = Val r.
Proof.
  intros Hn Hrun Hst.
  destruct (update_note_answered_200 w w' n members r Hn Hrun Hst)
    as (n' & -> & Hn' & _).
  rewrite (get_note_found w' (id n) n' Hn'). reflexivity.
Qed.

(** X12: An update touches the row of its id and nothing else: every other row
    is as it was, the row is still there, and its key and [created_at]
    are what they were. *)
Theorem update_note_touches_one_row (i : Z) (data : json) (w : world) :
  table_ok (notes w) ->
  (forall j, j <> i -> notes (snd (update_note i data w)) !! j = notes w !! j)
  /\ (forall n, notes w !! i = Some n ->
        exists n', notes (snd (update_note i data w)) !! i = Some n'
                   /\ id n' = id n /\ created_at n' = created_at n).
Proof.
  intros Hok. split.
  - intros j Hj. unfold update_note. run_all.
    split_matches; cbn [snd notes]; try reflexivity;
      match goal with
      | E : notes _ !! _ = Some _ |- _ =>
          destruct (Hok _ _ E) as [Hid _]; rewrite Hid
      end;
      apply lookup_insert_ne; cbn [id]; congruence.
  - intros n Hn. destruct (Hok _ _ Hn) as [Hid _].
    unfold update_note. run_all. rewrite Hn.
    split_matches; cbn [snd notes]; try (exists n; auto; fail);
      cbn [id]; rewrite ?Hid, lookup_insert_eq; eexists; (split; [reflexivity|]);
      cbn [id created_at]; auto.
Qed.

(** X13: Tags that cannot be iterated fail the whole update: the answer is 500
    and no field of the payload is stored, the title and the content
    included. *)
Theorem update_note_with_tags_that_cannot_be_iterated
    (w : world) (n : Note) (members : list (str * json)) (v : json) :
  notes w !! id n = Some n ->
  Json.dict_lookup (u "tags") members = Some v ->
  v = JBool true \/ (exists z, v = JInt z /\ z <> 0%Z) ->
  update_note (id n) (JObj members) w
  = (Val (jsonify (error_body (exn_str TypeError)) 500),
     mkWorld (notes w) (clock w) (trace w ++ [SqlGet (id n)])).
Proof.
  intros Hn Hv Hbad.
  rewrite update_note_unfold by (assumption || (intros ->; discriminate)).
  unfold update_outcome, assigned_tags.
  rewrite Hv, (set_tags_list_not_iterable v Hbad). reflexivity.
Qed.

End UpdateMore.

(** ** More on the handlers that call the completion service *)

Section LlmMore.

Context `{Env}.

Lemma translate_note_unfold
    (w : world) (n : Note) (members : list (str * json)) (language : str) :
  notes w !! id n = Some n ->
  row_ok n = true ->
  Json.dict_lookup (u "language") members = Some (JStr language) ->
  In language allowed_languages ->
  translate_note (id n) (JObj members) w = translation_outcome n language w.
Proof.
  intros Hn Hok Hl Hin.
  destruct members as [|m members]; [discriminate|].
  apply row_ok_fields in Hok. destruct Hok as (Ht & Hc & _).
  destruct (title n) as [| | | |t| |] eqn:Et; try discriminate.
  destruct (content n) as [| | | |c| |] eqn:Ec; try discriminate.
  unfold translate_note, translation_outcome, translation_request. run.
  rewrite Hn, Et, Ec.
  unfold py_or. cbn [truthy py_get]. rewrite Hl. cbn [py_in_set py_str].
  rewrite (proj2 (existsb_eqb_In _ _) Hin). cbn [negb].
  assert (Et' : (if truthy (JStr t) then JStr t else JStr []) = JStr t)
    by (destruct t; reflexivity).
  assert (Ec' : (if truthy (JStr c) then JStr c else JStr []) = JStr c)
    by (destruct c; reflexivity).
  cbn [truthy] in Et', Ec'. rewrite Et', Ec'.
  rewrite <- ?app_assoc. cbn [app].
  destruct (completion _ _) as [tt'|e]; cbn [notes clock trace];
    rewrite <- ?app_assoc; cbn [app]; [|reflexivity].
  destruct (completion _ _) as [tc|e]; cbn [notes clock trace];
    rewrite <- ?app_assoc; reflexivity.
Qed.

(** X14: Translating a stored note into an allowed language sends two requests
    to the completion service, the title first and then the content, each
    with the instruction naming the language; the answer carries the id of
    the note and the two translations, and the table is as it was. *)
Theorem translate_note_translates_title_then_content
    (w : world) (n : Note) (members : list (str * json)) (language : str)
    (translated_title translated_content : str) :
  notes w !! id n = Some n ->
  row_ok n = true ->
  Json.dict_lookup (u "language") members = Some (JStr language) ->
  In language allowed_languages ->
  completion (trace w ++ [SqlGet (id n)]) (translation_request language (title n))
  = Val translated_title ->
  completion (trace w ++ [SqlGet (id n);
                          Completion (translation_request language (title n))])
             (translation_request language (content n))
  = Val translated_content ->
  exists w',
    translate_note (id n) (JObj members) w
    = (Val (jsonify (JObj [ (u "id", JInt (id n));
                            (u "title", JStr translated_title);
                            (u "content", JStr translated_content) ]) 200), w')
    /\ notes w' = notes w
    /\ completions (trace w')
       = completions (trace w)
         ++ [translation_request language (title n);
             translation_request language (content n)].
Proof.
  intros Hn Hok Hl Hin Ht Hc.
  rewrite (translate_note_unfold w n members language Hn Hok Hl Hin).
  unfold translation_outcome. rewrite Ht.
  rewrite <- app_assoc. cbn [app]. rewrite Hc.
  eexists. split; [reflexivity|]. split; [reflexivity|].
  cbn [trace]. unfold completions. rewrite !flat_map_app. cbn [flat_map app].
  rewrite ?app_nil_r. reflexivity.
Qed.

(** X15: When the completion service fails on the title, the answer is 500 with
    the text of the exception and the content is never sent. *)
Theorem translate_note_stops_at_the_first_failure
    (w : world) (n : Note) (members : list (str * json)) (language : str) (e : exn) :
  notes w !! id n = Some n ->
  row_ok n = true ->
  Json.dict_lookup (u "language") members = Some (JStr language) ->
  In language allowed_languages ->
  completion (trace w ++ [SqlGet (id n)]) (translation_request language (title n))
  = Raise e ->
  exists w',
    translate_note (id n) (JObj members) w
    = (Val (jsonify (error_body (exn_str e)) 500), w')
    /\ notes w' = notes w
    /\ completions (trace w')
       = completions (trace w) ++ [translation_request language (title n)].
Proof.
  intros Hn Hok Hl Hin Ht.
  rewrite (translate_note_unfold w n members language Hn Hok Hl Hin).
  unfold translation_outcome. rewrite Ht.
  eexists. split; [reflexivity|]. split; [reflexivity|].
  cbn [trace]. unfold completions. rewrite !flat_map_app. cbn [flat_map app].
  rewrite ?app_nil_r. reflexivity.
Qed.

(** X16: Whatever the id and the payload, [translate_note] writes nothing and
    reads no clock; it looks the note up once and calls the completion
    service at most twice. *)
Theorem translate_note_only_reads (i : Z) (data : json) (w : world) :
  exists reqs,
    trace (snd (translate_note i data w))
    = trace w ++ SqlGet i :: map Completion reqs
    /\ length reqs <= 2
    /\ notes (snd (translate_note i data w)) = notes w
    /\ clock (snd (translate_note i data w)) = clock w.
Proof.
  unfold translate_note. run.
  split_matches; cbn [snd trace notes clock]; rewrite <- ?app_assoc; cbn [app];
    first [ exists []; split; [reflexivity|]; cbn; auto; fail
          | eexists [_]; split; [reflexivity|]; cbn; auto; fail
          | eexists [_; _]; split; [reflexivity|]; cbn; auto ].
Qed.


(** X18: With an input, a language that is given and is not one of the three
    allowed strings is answered 400, [None], a number or a boolean
    included; nothing is sent to the completion service. *)
Theorem generate_note_rejects_other_languages
    (members : list (str * json)) (raw : str) (language : json) (w : world) :
  Json.dict_lookup (u "input") members = Some (JStr raw) ->
  PyStr.strip raw <> [] ->
  Json.dict_lookup (u "language") members = Some language ->
  match language with
  | JStr s => ~ In s allowed_languages
  | JArr _ | JObj _ => False
  | _ => True
  end ->
  generate_note (JObj members) w
  = (Val (jsonify (error_body unsupported_language) 400), w).
Proof.
  intros Hin Hraw Hl Hbad.
  destruct members as [|m members]; [discriminate|].
  unfold generate_note, py_or. run. cbn [truthy py_get].
  rewrite Hin, Hl. cbn [py_strip].
  destruct (PyStr.strip raw) eqn:Es; [congruence|]. cbn [negb].
  destruct language; cbn [py_in_set]; try reflexivity; try contradiction.
  rewrite (existsb_eqb_not_In _ _ Hbad). reflexivity.
Qed.

(** X19: When the completion service fails, the answer is 500 and its text is
    that of the exception after the words of the handler. *)
Theorem generate_note_upstream_failure
    (members : list (str * json)) (raw language : str) (w : world) (e : exn) :
  valid_generate_request members raw language ->
  completion (trace w) (ProcessUserNotes (JStr language) (PyStr.strip raw)) = Raise e ->
  generate_note (JObj members) w
  = (Val (jsonify (error_body (u "Failed to generate note: " ++ exn_str e)) 500),
     after_completion w language raw).
Proof.
  intros (Hin & Hraw & Hlang & Hok) Hans.
  destruct members as [|m members]; [discriminate|].
  unfold generate_note, after_completion. run.
  unfold py_or. cbn [truthy py_get]. rewrite Hin. cbn [py_strip].
  unfold assigned in Hlang. rewrite Hlang.
  destruct (PyStr.strip raw) eqn:Es; [congruence|]. cbn [truthy negb py_in_set].
  rewrite (proj2 (existsb_eqb_In _ _) Hok). cbn [negb].
  rewrite Hans. reflexivity.
Qed.

(** X20: The payload is read before the [try]: a body that is not an object, an
    input that is not a string, or (with an input) a language that is a
    list or an object raises an exception that leaves the handler; the
    framework answers with its 500 page, and nothing is sent to the
    completion service. *)
Theorem generate_note_payload_of_the_wrong_type (data : json) (w : world) :
  (truthy data = true /\ forall members, data <> JObj members)
  \/ (exists members,
        data = JObj members
        /\ ((exists v, Json.dict_lookup (u "input") members = Some v
                       /\ is_string v = false)
            \/ (exists raw language,
                  Json.dict_lookup (u "input") members = Some (JStr raw)
                  /\ PyStr.strip raw <> []
                  /\ Json.dict_lookup (u "language") members = Some language
                  /\ match language with
                     | JArr _ | JObj _ => True
                     | _ => False
                     end))) ->
  serve (generate_note data) w = (mkResponse ErrorPage 500, w).
Proof.
  intros [[Ht Hno] | (members & -> & [(v & Hv & Hs) | (raw & l & Hin & Hraw & Hl & Hbad)])].
  - unfold serve, generate_note, py_or. rewrite Ht. run.
    destruct data; try reflexivity. exfalso. eapply Hno. reflexivity.
  - destruct members as [|m members]; [discriminate|].
    unfold serve, generate_note, py_or. run. cbn [truthy py_get].
    rewrite Hv. destruct v; try discriminate; reflexivity.
  - destruct members as [|m members]; [discriminate|].
    unfold serve, generate_note, py_or. run. cbn [truthy py_get].
    rewrite Hin, Hl. cbn [py_strip].
    destruct (PyStr.strip raw) eqn:Es; [congruence|]. cbn [negb].
    destruct l; try contradiction; reflexivity.
Qed.

(** X21: Whatever the payload, [generate_note] never touches the table: no
    query, no row written, no clock read.  It calls the completion service
    at most once. *)
Theorem generate_note_never_touches_the_table (data : json) (w : world) :
  notes (snd (generate_note data w)) = notes w
  /\ clock (snd (generate_note data w)) = clock w
  /\ (trace (snd (generate_note data w)) = trace w
      \/ exists req, trace (snd (generate_note data w)) = trace w ++ [Completion req]).
Proof.
  unfold generate_note. run.
  split_matches; cbn [snd trace notes clock]; eauto.
Qed.

End LlmMore.

(** ** Listing the notes *)

Lemma newer_first_total : Total newer_first.
Proof.
  intros a b. unfold newer_first, stamp_leb.
  destruct (updated_at a) as [x|], (updated_at b) as [y|]; auto.
  destruct (Z.leb_spec y x); [left; reflexivity|].
  right. apply Z.leb_le. lia.
Qed.

Lemma newer_first_transitive : Transitive newer_first.
Proof.
  intros a b c. unfold newer_first, stamp_leb.
  destruct (updated_at a) as [x|], (updated_at b) as [y|], (updated_at c) as [z|];
    try congruence.
  rewrite !Z.leb_le. lia.
Qed.

Lemma StronglySorted_apart {A : Type} (R : A -> A -> Prop) (l : list A) :
  StronglySorted R l ->
  forall before a between b after,
    l = before ++ a :: between ++ b :: after -> R a b.
Proof.
  induction 1 as [|x l Hs IH Hall]; intros before a between b after E.
  - destruct before; discriminate.
  - destruct before as [|y before]; cbn [app] in E.
    + injection E as <- ->. rewrite List.Forall_forall in Hall.
      apply Hall. apply in_or_app. right. left. reflexivity.
    + injection E as _ ->. eapply IH. reflexivity.
Qed.

Section Listing.

Context `{Env}.

(** X22: [get_notes] answers 200 with the stored notes, each of them once, and
    of two notes in the list the one that comes first was updated last;
    the table and the clock are as they were. *)
Theorem get_notes_lists_every_note_newest_first (w : world) :
  exists rows,
    get_notes w = (Val (jsonify (JArr (map to_dict rows)) 200), w)
    /\ Permutation rows (map snd (map_to_list (notes w)))
    /\ (forall n, In n rows <-> exists i, notes w !! i = Some n)
    /\ length rows = size (notes w)
    /\ forall before a between b after,
         rows = before ++ a :: between ++ b :: after ->
         stamp_leb (updated_at b) (updated_at a) = true.
Proof.
  exists (all_by_updated_at (notes w)).
  assert (Hperm : Permutation (all_by_updated_at (notes w))
                              (map snd (map_to_list (notes w))))
    by apply merge_sort_Permutation.
  split; [reflexivity|]. split; [exact Hperm|]. split; [|split].
  - intros n. split.
    + intros Hin. apply (Permutation_in _ Hperm) in Hin.
      apply in_map_iff in Hin. destruct Hin as ([i m] & <- & Hin).
      exists i. apply elem_of_map_to_list. apply list_elem_of_In. exact Hin.
    + intros (i & Hi). apply (Permutation_in _ (Permutation_sym Hperm)).
      apply in_map_iff. exists (i, n). split; [reflexivity|].
      apply list_elem_of_In. apply elem_of_map_to_list. exact Hi.
  - rewrite (Permutation_length Hperm), length_map. apply length_map_to_list.
  - apply (StronglySorted_apart newer_first).
    apply (@StronglySorted_merge_sort _ newer_first _
             newer_first_transitive newer_first_total).
Qed.

End Listing.

(** ** Sequences of requests *)

Section RequestsFacts.

Context `{Env}.

Lemma serve_world (h : M response) (w : world) :
  snd (serve h w) = snd (h w).
Proof. unfold serve. destruct (h w) as [[r|[]] w']; reflexivity. Qed.


Lemma reads_only_frame (r : request) (w : world) :
  reads_only r = true ->
  notes (snd (dispatch r w)) = notes w /\ clock (snd (dispatch r w)) = clock w.
Proof.
  destruct r; try discriminate; intros _; cbn [dispatch].
  - split; reflexivity.
  - unfold get_note. run_all. split_matches; auto.
  - unfold search_notes. run_all. split_matches; auto.
  - unfold translate_note. run_all. split_matches; auto.
  - unfold generate_note. run_all. split_matches; auto.
Qed.





(** X24: Requests to the routes that list, read, search, translate and generate
    leave the table and the clock as they were, however many are served. *)
Theorem reading_requests_change_nothing (rs : list request) (w : world) :
  forallb reads_only rs = true ->
  notes (snd (serve_all rs w)) = notes w
  /\ clock (snd (serve_all rs w)) = clock w.
Proof.
  revert w. induction rs as [|r rs IH]; intros w Hrs; [split; reflexivity|].
  cbn [forallb] in Hrs. apply andb_true_iff in Hrs. destruct Hrs as [Hr Hrs].
  cbn [serve_all].
  pose proof (serve_world (dispatch r) w) as Hw.
  destruct (serve (dispatch r) w) as [a w1]. cbn [snd] in Hw.
  specialize (IH w1 Hrs). destruct (serve_all rs w1) as [l w2]. cbn [snd] in *.
  destruct IH as [-> ->]. rewrite Hw. apply reads_only_frame, Hr.
Qed.


End RequestsFacts.

(** ** The comma-separated fallback of [get_tags_list] *)

Lemma split_without_sep (sep : N) (s t : str) :
  In t (PyStr.split sep s) -> ~ In sep t.
Proof.
  revert t. induction s as [|c r IH]; intros t; cbn [PyStr.split].
  - intros [<-|[]]. intros [].
  - destruct (N.eqb_spec c sep) as [->|Hne].
    + intros [<-|Hin]; [intros [] | apply IH, Hin].
    + destruct (PyStr.split sep r) as [|h l] eqn:E.
      * intros [<-|[]]. intros [->|[]]. congruence.
      * intros [<-|Hin].
        -- intros [->|Hh]; [congruence|]. apply (IH h); [left; reflexivity | exact Hh].
        -- apply IH. right. exact Hin.
Qed.

Lemma lstrip_incl (s : str) (c : N) : In c (PyStr.lstrip s) -> In c s.
Proof.
  induction s as [|x r IH]; cbn [PyStr.lstrip]; [auto|].
  destruct (PyStr.isspace x); [right; auto | auto].
Qed.

Lemma strip_incl (s : str) (c : N) : In c (PyStr.strip s) -> In c s.
Proof.
  unfold PyStr.strip, PyStr.rstrip. intros Hin.
  apply lstrip_incl. apply in_rev in Hin. apply lstrip_incl in Hin.
  apply in_rev in Hin. exact Hin.
Qed.

Lemma lstrip_head (s r : str) (c : N) :
  PyStr.lstrip s = c :: r -> PyStr.isspace c = false.
Proof.
  induction s as [|x s IH]; cbn [PyStr.lstrip]; [discriminate|].
  destruct (PyStr.isspace x) eqn:Ex; [exact IH|].
  intros [= <- _]. exact Ex.
Qed.

Lemma lstrip_fixed (s : str) : PyStr.lstrip (PyStr.lstrip s) = PyStr.lstrip s.
Proof.
  destruct (PyStr.lstrip s) as [|c r] eqn:E; [reflexivity|].
  cbn [PyStr.lstrip]. rewrite (lstrip_head s r c E). reflexivity.
Qed.

Lemma lstrip_snoc (a : str) (c : N) :
  PyStr.isspace c = false -> PyStr.lstrip (a ++ [c]) = PyStr.lstrip a ++ [c].
Proof.
  intros Hc. induction a as [|x a IH]; cbn [app PyStr.lstrip].
  - rewrite Hc. reflexivity.
  - destruct (PyStr.isspace x); [exact IH | reflexivity].
Qed.

Lemma rstrip_cons (c : N) (r : str) :
  PyStr.isspace c = false -> PyStr.rstrip (c :: r) = c :: PyStr.rstrip r.
Proof.
  intros Hc. unfold PyStr.rstrip. cbn [rev].
  rewrite (lstrip_snoc _ c Hc), rev_app_distr. reflexivity.
Qed.

(** Trimming what was trimmed changes nothing. *)
Lemma strip_fixed (s : str) : PyStr.strip (PyStr.strip s) = PyStr.strip s.
Proof.
  unfold PyStr.strip.
  assert (Hl : PyStr.lstrip (PyStr.rstrip (PyStr.lstrip s))
               = PyStr.rstrip (PyStr.lstrip s)).
  { destruct (PyStr.lstrip s) as [|c r] eqn:E; [reflexivity|].
    pose proof (lstrip_head s r c E) as Hc.
    rewrite (rstrip_cons c r Hc). cbn [PyStr.lstrip]. rewrite Hc. reflexivity. }
  rewrite Hl. unfold PyStr.rstrip at 1 2. rewrite rev_involutive, lstrip_fixed.
  reflexivity.
Qed.

Section Fallback.

Context `{Env}.

(** X26: A stored text that is not valid JSON is read as a list of strings,
    none of them empty, none with a comma, none with white space at
    either end. *)
Theorem get_tags_list_fallback_gives_trimmed_parts (s : str) :
  s <> [] ->
  Json.loads s = None ->
  exists parts,
    get_tags_list (JStr s) = JArr (map JStr parts)
    /\ Forall (fun t => t <> [] /\ ~ In (Json.ch ",") t /\ PyStr.strip t = t) parts.
Proof.
  intros Hs Hno. exists (comma_separated s). split.
  - unfold get_tags_list. destruct s as [|c s]; [congruence|].
    cbn [truthy negb json_loads]. rewrite Hno. reflexivity.
  - apply List.Forall_forall. intros t Hin. unfold comma_separated in Hin.
    apply List.filter_In in Hin. destruct Hin as [Hin Hne].
    apply in_map_iff in Hin. destruct Hin as (p & <- & Hp).
    split; [|split].
    + intros E. rewrite E in Hne. discriminate.
    + intros Hc. apply strip_incl in Hc. exact (split_without_sep _ _ _ Hp Hc).
    + apply strip_fixed.
Qed.

End Fallback.

(** * More handlers on concrete requests *)


Lemma two_notes_table_ok : table_ok (notes two_notes_world).
Proof.
  intros i n Hi. cbn [notes two_notes_world] in Hi.
  apply lookup_insert_Some in Hi as [[<- <-]|[_ Hi]]; [split; reflexivity|].
  apply lookup_singleton_Some in Hi as [<- <-]. split; reflexivity.
Qed.

Lemma delete_note_removes_only_that_row_witness :
  exists w',
    @delete_note (stub_env (Val [])) 2 two_notes_world
    = (Val (mkResponse EmptyBody 204), w')
    /\ notes w' !! 2%Z = None
    /\ (forall j, j <> 2%Z -> notes w' !! j = notes two_notes_world !! j)
    /\ clock w' = clock two_notes_world.
Proof.
  apply (@delete_note_removes_only_that_row (stub_env (Val []))
           two_notes_world second_note).
  reflexivity.
Defined.


Lemma delete_note_then_read_or_delete_witness :
  exists w',
    @delete_note (stub_env (Val [])) 1 sample_world
    = (Val (mkResponse EmptyBody 204), w')
    /\ fst (serve (@get_note (stub_env (Val [])) 1) w') = mkResponse ErrorPage 404
    /\ fst (@delete_note (stub_env (Val [])) 1 w')
       = Val (jsonify (error_body (@exn_str (stub_env (Val [])) NotFound)) 500)
    /\ notes (snd (@delete_note (stub_env (Val [])) 1 w')) = notes w'.
Proof.
  apply (@delete_note_then_read_or_delete (stub_env (Val []))
           sample_world sample_note).
  reflexivity.
Defined.

Lemma create_note_then_read_or_delete_witness :
  fst (@get_note (stub_env (Val [])) 2
         (@after_insert (stub_env (Val [])) sample_world
            (@inserted_row (stub_env (Val [])) sample_world
               (JStr (u "t")) (JStr (u "c")) JNull JNull JNull)))
  = Val (jsonify
           (@to_dict (stub_env (Val []))
              (@inserted_row (stub_env (Val [])) sample_world
                 (JStr (u "t")) (JStr (u "c")) JNull JNull JNull)) 200)
  /\ fst (@delete_note (stub_env (Val [])) 2
            (@after_insert (stub_env (Val [])) sample_world
               (@inserted_row (stub_env (Val [])) sample_world
                  (JStr (u "t")) (JStr (u "c")) JNull JNull JNull)))
     = Val (mkResponse EmptyBody 204)
  /\ notes (snd (@delete_note (stub_env (Val [])) 2
                   (@after_insert (stub_env (Val [])) sample_world
                      (@inserted_row (stub_env (Val [])) sample_world
                         (JStr (u "t")) (JStr (u "c")) JNull JNull JNull))))
     = notes sample_world.
Proof.
  apply (@create_note_then_read_or_delete (stub_env (Val []))
           (JObj [(u "title", JStr (u "t")); (u "content", JStr (u "c"))])
           sample_world
           (@after_insert (stub_env (Val [])) sample_world
              (@inserted_row (stub_env (Val [])) sample_world
                 (JStr (u "t")) (JStr (u "c")) JNull JNull JNull))
           (jsonify
              (@to_dict (stub_env (Val []))
                 (@inserted_row (stub_env (Val [])) sample_world
                    (JStr (u "t")) (JStr (u "c")) JNull JNull JNull)) 201)).
  - vm_compute. reflexivity.
  - reflexivity.
Defined.

Lemma create_note_with_null_title_or_content_witness :
  exists r,
    @create_note (stub_env (Val []))
                 (JObj [(u "title", JNull); (u "content", JStr (u "c"))]) sample_world
    = (Val r, sample_world)
    /\ status r = 500%Z.
Proof.
  apply (@create_note_with_null_title_or_content (stub_env (Val []))
           [(u "title", JNull); (u "content", JStr (u "c"))] JNull (JStr (u "c"))
           sample_world).
  - reflexivity.
  - reflexivity.
  - left. reflexivity.
Defined.

(** A list that holds both words passes the test for the keys; indexing it
    by a string then raises, and the answer is 500. *)
Lemma create_note_needs_an_object_witness :
  exists r,
    @create_note (stub_env (Val []))
                 (JArr [JStr (u "title"); JStr (u "content")]) sample_world
    = (Val r, sample_world)
    /\ (status r = 400%Z \/ status r = 500%Z).
Proof.
  apply (@create_note_needs_an_object (stub_env (Val []))
           (JArr [JStr (u "title"); JStr (u "content")]) sample_world).
  intros members. discriminate.
Defined.

Lemma tags_are_stored_as_strings_witness :
  exists stored,
    @set_tags_list (stub_env (Val [])) (JArr [JStr (u "work"); JInt 7]) = Val stored
    /\ string_or_none stored = true
    /\ @get_tags_list (stub_env (Val [])) stored
       = JArr [JStr (u "work"); JStr (u "<repr>")].
Proof.
  apply (@tags_are_stored_as_strings (stub_env (Val []))
           (JArr [JStr (u "work"); JInt 7]) [JStr (u "work"); JInt 7]).
  - reflexivity.
  - repeat constructor; try (vm_compute; reflexivity);
      vm_compute; intros [? ?]; discriminate.
Defined.

Lemma tags_given_as_a_string_witness :
  exists stored,
    @set_tags_list (stub_env (Val [])) (JStr (u "ab")) = Val stored
    /\ @get_tags_list (stub_env (Val [])) stored = JArr [JStr (u "a"); JStr (u "b")].
Proof.
  apply (@tags_given_as_a_string (stub_env (Val [])) (u "ab")).
  repeat constructor.
Defined.


Lemma update_note_then_read_witness :
  fst (@get_note (stub_env (Val [])) 1
         (mkWorld (<[1%Z := bread_row]> (notes sample_world)) 1001
                  [SqlGet 1; SqlUpdate 1]))
  = Val (jsonify (@to_dict (stub_env (Val [])) bread_row) 200).
Proof.
  apply (@update_note_then_read (stub_env (Val [])) sample_world
           (mkWorld (<[1%Z := bread_row]> (notes sample_world)) 1001
                    [SqlGet 1; SqlUpdate 1])
           sample_note [(u "content", JStr (u "bread"))]
           (jsonify (@to_dict (stub_env (Val [])) bread_row) 200)).
  - reflexivity.
  - vm_compute. reflexivity.
  - reflexivity.
Defined.

Lemma update_note_touches_one_row_witness :
  (forall j, j <> 1%Z ->
     notes (snd (@update_note (stub_env (Val [])) 1
                   (JObj [(u "content", JStr (u "bread"))]) two_notes_world)) !! j
     = notes two_notes_world !! j)
  /\ (forall n, notes two_notes_world !! 1%Z = Some n ->
        exists n',
          notes (snd (@update_note (stub_env (Val [])) 1
                        (JObj [(u "content", JStr (u "bread"))]) two_notes_world))
            !! 1%Z = Some n'
          /\ id n' = id n /\ created_at n' = created_at n).
Proof.
  apply (@update_note_touches_one_row (stub_env (Val [])) 1
           (JObj [(u "content", JStr (u "bread"))]) two_notes_world).
  exact two_notes_table_ok.
Defined.

Lemma update_note_with_tags_that_cannot_be_iterated_witness :
  @update_note (stub_env (Val [])) 1
    (JObj [(u "title", JStr (u "New")); (u "tags", JInt 5)]) sample_world
  = (Val (jsonify (error_body (@exn_str (stub_env (Val [])) TypeError)) 500),
     mkWorld (notes sample_world) (clock sample_world)
             (trace sample_world ++ [SqlGet 1])).
Proof.
  apply (@update_note_with_tags_that_cannot_be_iterated (stub_env (Val []))
           sample_world sample_note
           [(u "title", JStr (u "New")); (u "tags", JInt 5)] (JInt 5)).
  - reflexivity.
  - reflexivity.
  - right. exists 5%Z. split; [reflexivity | lia].
Defined.

Lemma translate_note_translates_title_then_content_witness :
  exists w',
    @translate_note (stub_env (Val (u "translated"))) 1
      (JObj [(u "language", JStr (u "Japanese"))]) sample_world
    = (Val (jsonify (JObj [ (u "id", JInt 1);
                            (u "title", JStr (u "translated"));
                            (u "content", JStr (u "translated")) ]) 200), w')
    /\ notes w' = notes sample_world
    /\ completions (trace w')
       = completions (trace sample_world)
         ++ [translation_request (u "Japanese") (JStr (u "Groceries"));
             translation_request (u "Japanese") (JStr (u "milk, eggs"))].
Proof.
  apply (@translate_note_translates_title_then_content
           (stub_env (Val (u "translated"))) sample_world sample_note
           [(u "language", JStr (u "Japanese"))] (u "Japanese")
           (u "translated") (u "translated")).
  - reflexivity.
  - reflexivity.
  - reflexivity.
  - vm_compute. auto.
  - reflexivity.
  - reflexivity.
Defined.

Lemma translate_note_stops_at_the_first_failure_witness :
  exists w',
    @translate_note (stub_env (Raise (UpstreamError (u "timeout")))) 1
      (JObj [(u "language", JStr (u "Chinese"))]) sample_world
    = (Val (jsonify
              (error_body (@exn_str (stub_env (Raise (UpstreamError (u "timeout"))))
                                    (UpstreamError (u "timeout")))) 500), w')
    /\ notes w' = notes sample_world
    /\ completions (trace w')
       = completions (trace sample_world)
         ++ [translation_request (u "Chinese") (JStr (u "Groceries"))].
Proof.
  apply (@translate_note_stops_at_the_first_failure
           (stub_env (Raise (UpstreamError (u "timeout")))) sample_world sample_note
           [(u "language", JStr (u "Chinese"))] (u "Chinese")
           (UpstreamError (u "timeout"))).
  - reflexivity.
  - reflexivity.
  - reflexivity.
  - vm_compute. auto.
  - reflexivity.
Defined.


(** A language given as [null] is not replaced by the default. *)
Lemma generate_note_rejects_other_languages_witness :
  @generate_note (stub_env (Val meeting_answer))
    (JObj [(u "input", JStr (u "buy milk")); (u "language", JNull)]) sample_world
  = (Val (jsonify (error_body unsupported_language) 400), sample_world).
Proof.
  apply (@generate_note_rejects_other_languages (stub_env (Val meeting_answer))
           [(u "input", JStr (u "buy milk")); (u "language", JNull)]
           (u "buy milk") JNull sample_world).
  - reflexivity.
  - vm_compute. discriminate.
  - reflexivity.
  - exact I.
Defined.

Lemma generate_note_upstream_failure_witness :
  @generate_note (stub_env (Raise (UpstreamError (u "timeout"))))
    (JObj [(u "input", JStr (u "buy milk"))]) sample_world
  = (Val (jsonify
            (error_body
               (u "Failed to generate note: "
                ++ @exn_str (stub_env (Raise (UpstreamError (u "timeout"))))
                            (UpstreamError (u "timeout")))) 500),
     after_completion sample_world (u "English") (u "buy milk")).
Proof.
  apply (@generate_note_upstream_failure
           (stub_env (Raise (UpstreamError (u "timeout"))))
           [(u "input", JStr (u "buy milk"))] (u "buy milk") (u "English")
           sample_world (UpstreamError (u "timeout"))).
  - repeat split; try reflexivity.
    + vm_compute. discriminate.
    + vm_compute. auto.
  - reflexivity.
Defined.

Lemma generate_note_payload_of_the_wrong_type_witness :
  serve (@generate_note (stub_env (Val meeting_answer))
           (JObj [(u "input", JInt 5)])) sample_world
  = (mkResponse ErrorPage 500, sample_world).
Proof.
  apply (@generate_note_payload_of_the_wrong_type (stub_env (Val meeting_answer))
           (JObj [(u "input", JInt 5)]) sample_world).
  right. exists [(u "input", JInt 5)]. split; [reflexivity|].
  left. exists (JInt 5). split; reflexivity.
Defined.


Lemma reading_requests_change_nothing_witness :
  notes (snd (@serve_all (stub_env (Val meeting_answer))
                some_reading_requests sample_world))
  = notes sample_world
  /\ clock (snd (@serve_all (stub_env (Val meeting_answer))
                   some_reading_requests sample_world))
     = clock sample_world.
Proof.
  apply (@reading_requests_change_nothing (stub_env (Val meeting_answer))
           some_reading_requests sample_world).
  reflexivity.
Defined.

Lemma get_tags_list_fallback_gives_trimmed_parts_witness :
  exists parts,
    @get_tags_list (stub_env (Val [])) (JStr (u "a, b ,c")) = JArr (map JStr parts)
    /\ Forall (fun t => t <> [] /\ ~ In (Json.ch ",") t /\ PyStr.strip t = t) parts.
Proof.
  apply (@get_tags_list_fallback_gives_trimmed_parts (stub_env (Val []))
           (u "a, b ,c")).
  - discriminate.
  - vm_compute. reflexivity.
Defined.
